(** * NTP monitoring service ([update.py]): model and verified properties

    The development follows the layout of the Python module:

    - the SQLite table [ntp_data] and its [INSERT] statement;
    - [query_ntp_server] and [process_response], the two functions that
      turn one exchange with a time server into one stored row;
    - one iteration of [ntp_monitoring_loop], with the thread pool made
      explicit as a schedule of worker and main-thread events;
    - the summary arithmetic (jitter, mean offset, residual sleep);
    - the two read-only HTTP handlers, [get_realtime_data] and
      [get_history].

    Python floats are idealised as exact rationals ([Q]); the one
    irrational operation, the square root inside [statistics.stdev], is
    the real square root.  Everything else is executable.

    What the program cannot decide by itself is an input of the model:
    the answers of the servers, the readings of the wall clock, whether
    SQLite commits an INSERT, and the interleaving of the pool threads
    with the main thread. *)

From Stdlib Require Import ZArith QArith Qabs Qround Qminmax List String Ascii Bool.
From Stdlib Require Import Lia Lqa Permutation Sorted.
From Stdlib Require Import Reals Qreals Lra Qpower.
From Stdlib Require DecimalString DecimalN.
Import ListNotations.

Local Open Scope string_scope.
Local Open Scope list_scope.
Local Open Scope Z_scope.

(** ** Data model *)

(** The attributes of an [ntplib.NTPStats] object that the module reads. *)
Module ntplib.
Record NTPStats : Type := mkNTPStats {
    orig_time : Q;        (* T1, client transmit *)
    recv_time : Q;        (* T2, server receive  *)
    tx_time : Q;          (* T3, server transmit *)
    dest_time : Q;        (* T4, client receive  *)
    root_delay : Q;
    root_dispersion : Q;
    stratum : Z;
    precision : Z         (* log2 of the clock precision *)
  }.
End ntplib.

(** A [datetime] value: the instant (microseconds since the epoch), used
    for differences, and the text that [.isoformat()] renders, used for
    storage. *)
Record datetime : Type := mkDatetime {
  micros : Z;
  isoformat : string
}.

(** [(a - b).total_seconds()] *)
Definition total_seconds (a b : datetime) : Q :=
  inject_Z (micros a - micros b) / 1000000.

(** One row of table [ntp_data], columns in schema order (index 0 to 10). *)
Record row : Type := mkRow {
  id : Z;
  timestamp : string;
  server : string;
  offset_ms : Q;
  delay_ms : Q;
  root_delay_ms : Q;
  root_dispersion_ms : Q;
  stratum : Z;
  response_time_ms : Q;
  precision_ms : Q;
  status : string
}.

(** The table together with the AUTOINCREMENT counter ([sqlite_sequence]):
    [seq] is the largest id ever handed out. *)
Record database : Type := mkDatabase {
  table : list row;
  seq : Z
}.

Definition empty_db : database := mkDatabase [] 0.

(** Everything a cycle reads from the outside world. *)
Record env : Type := mkEnv {
  (* [client.request(server, version=4)]; [None] when it raises *)
  request : string -> option ntplib.NTPStats;
  (* the [datetime.now(ist)] read inside [query_ntp_server] for a server *)
  now_query : string -> datetime;
  (* the [datetime.now(ist)] at the top of the loop body *)
  now_start : datetime;
  (* the [datetime.now(ist)] read when [elapsed] is computed *)
  now_end : datetime;
  (* whether the INSERT of this server's row commits; [false] when
     sqlite3 raises instead *)
  insert_ok : string -> bool
}.

(** Outcome of a call that may raise. *)
Inductive result (A : Type) : Type :=
| Ok (a : A)
| Raised.
Arguments Ok {A} a.
Arguments Raised {A}.

(** The list of servers to query. *)
Definition ntp_servers : list string :=
  [ "157.20.66.8"; "157.20.67.8"; "14.139.60.103"; "14.139.60.106";
    "14.139.60.107"; "time.nplindia.in"; "time.nplindia.org";
    "samay1.nic.in"; "samay2.nic.in"; "time.nist.gov"; "pool.ntp.org";
    "time.windows.com"; "time.google.com"; "asia.pool.ntp.org";
    "uk.pool.ntp.org" ].

(** ** The INSERT statement

    [INSERT INTO ntp_data (timestamp, server, ..., status) VALUES (...)]
    followed by [commit]: the new row gets the next id and goes to the
    end of the table.  When sqlite3 raises nothing is committed. *)
Definition execute_insert (e : env) (db : database)
    (ts srv : string) (off del rdel rdisp : Q) (strat : Z)
    (rt prec : Q) (st : string) : result database :=
  if insert_ok e srv then
    let i := seq db + 1 in
    Ok (mkDatabase
          (table db ++ [mkRow i ts srv off del rdel rdisp strat rt prec st])
          i)
  else Raised.

(** ** query_ntp_server *)

(** The dict returned on success. *)
Record probe_data : Type := mkProbe {
  pd_server : string;
  pd_response : ntplib.NTPStats;
  pd_timestamp : string
}.

Definition query_ntp_server (e : env) (srv : string) (db : database)
  : result (database * option probe_data) :=
  match request e srv with
  | Some response =>
      let timestamp := isoformat (now_query e srv) in
      Ok (db, Some (mkProbe srv response timestamp))
  | None =>
      let timestamp := isoformat (now_query e srv) in
      match execute_insert e db timestamp srv 0 0 0 0 0 0 0 "Error" with
      | Ok db' => Ok (db', None)
      | Raised => Raised
      end
  end.

(** ** process_response *)

Section Formulas.
Local Open Scope Q_scope.

Definition offset_of (T1 T2 T3 T4 : Q) : Q :=
    ((T2 - T1) + (T3 - T4)) / 2 * 1000.

Definition delay_of (T1 T2 T3 T4 : Q) : Q :=
    ((T4 - T1) - (T3 - T2)) * 1000.

Definition response_time_of (T2 T3 : Q) : Q :=
    (T3 - T2) * 1000.

Definition precision_of (p : Z) : Q := (2 ^ p) * 1000.
End Formulas.

(** The dict [{'offset': offset, 'delay': delay}] returned on success. *)
Record metrics : Type := mkMetrics {
  m_offset : Q;
  m_delay : Q
}.

Definition process_response (e : env) (data : option probe_data)
    (db : database) : result (database * option metrics) :=
  match data with
  | None => Ok (db, None)
  | Some d =>
      let srv := pd_server d in
      let response := pd_response d in
      let timestamp := pd_timestamp d in
      let T1 := ntplib.orig_time response in
      let T2 := ntplib.recv_time response in
      let T3 := ntplib.tx_time response in
      let T4 := ntplib.dest_time response in
      let offset := offset_of T1 T2 T3 T4 in
      let delay := delay_of T1 T2 T3 T4 in
      let response_time := response_time_of T2 T3 in
      let root_delay := (ntplib.root_delay response * 1000)%Q in
      let root_disp := (ntplib.root_dispersion response * 1000)%Q in
      let strat := ntplib.stratum response in
      let prec := precision_of (ntplib.precision response) in
      match execute_insert e db timestamp srv offset delay root_delay
              root_disp strat response_time prec "Online" with
      | Ok db' => Ok (db', Some (mkMetrics offset delay))
      | Raised => Raised
      end
  end.

(** ** One cycle of ntp_monitoring_loop

    [executor.submit] creates one future per server; a worker thread
    runs [query_ntp_server] for it, and the main thread receives the
    finished futures from [as_completed] one by one.  The order in which
    these things happen is not fixed by the program, so it is an input:
    a schedule of events.  Each INSERT is its own transaction, hence
    running a call to completion in one event loses no behaviour. *)

Inductive future : Type :=
| Pending
| Done (r : result (option probe_data)).

Inductive event : Type :=
| Worker (srv : string)   (* a pool thread runs [query_ntp_server(srv)] *)
| Yield (srv : string).   (* [as_completed] hands [srv]'s future to the loop body *)

Record cycle_state : Type := mkCycle {
  cs_db : database;
  future_to_server : list (string * future);
  cs_yielded : list string;
  delays : list Q;
  offsets : list Q;
  cs_raised : bool   (* an exception has left the [for] loop *)
}.

Definition cycle_init (db : database) : cycle_state :=
  mkCycle db (map (fun s => (s, Pending)) ntp_servers) [] [] [] false.

Fixpoint future_of (fs : list (string * future)) (srv : string)
  : option future :=
  match fs with
  | [] => None
  | (s, f) :: fs' => if String.eqb s srv then Some f else future_of fs' srv
  end.

Fixpoint set_future (fs : list (string * future)) (srv : string) (f : future)
  : list (string * future) :=
  match fs with
  | [] => []
  | (s, g) :: fs' =>
      if String.eqb s srv then (s, f) :: fs'
      else (s, g) :: set_future fs' srv f
  end.

Definition mem (srv : string) (l : list string) : bool :=
  existsb (String.eqb srv) l.

Definition step (e : env) (ev : event) (st : cycle_state)
  : option cycle_state :=
  match ev with
  | Worker srv =>
      match future_of (future_to_server st) srv with
      | Some Pending =>
          match query_ntp_server e srv (cs_db st) with
          | Ok (db', data) =>
              Some (mkCycle db'
                      (set_future (future_to_server st) srv (Done (Ok data)))
                      (cs_yielded st) (delays st) (offsets st) (cs_raised st))
          | Raised =>
              Some (mkCycle (cs_db st)
                      (set_future (future_to_server st) srv (Done Raised))
                      (cs_yielded st) (delays st) (offsets st) (cs_raised st))
          end
      | _ => None
      end
  | Yield srv =>
      if cs_raised st then None
      else if mem srv (cs_yielded st) then None
      else
        match future_of (future_to_server st) srv with
        | Some (Done r) =>
            let yielded := srv :: cs_yielded st in
            match r with
            | Raised =>          (* [future.result()] re-raises *)
                Some (mkCycle (cs_db st) (future_to_server st) yielded
                        (delays st) (offsets st) true)
            | Ok data =>
                match process_response e data (cs_db st) with
                | Raised =>
                    Some (mkCycle (cs_db st) (future_to_server st) yielded
                            (delays st) (offsets st) true)
                | Ok (db', Some m) =>
                    Some (mkCycle db' (future_to_server st) yielded
                            (delays st ++ [m_delay m])
                            (offsets st ++ [m_offset m]) false)
                | Ok (db', None) =>
                    Some (mkCycle db' (future_to_server st) yielded
                            (delays st) (offsets st) false)
                end
            end
        | _ => None
        end
  end.

Fixpoint run (e : env) (sched : list event) (st : cycle_state)
  : option cycle_state :=
  match sched with
  | [] => Some st
  | ev :: sched' =>
      match step e ev st with
      | Some st' => run e sched' st'
      | None => None
      end
  end.

Definition is_done (f : future) : bool :=
  match f with Pending => false | Done _ => true end.

(** The [with] block is left when every worker has finished and the
    [for] loop has either consumed every future or been left by an
    exception. *)
Definition cycle_over (st : cycle_state) : bool :=
  forallb (fun p => is_done (snd p)) (future_to_server st)
  && (cs_raised st
      || forallb (fun p => mem (fst p) (cs_yielded st)) (future_to_server st)).

(** The schedule with no concurrency at all: one server after the other. *)
Definition sequential (servers : list string) : list event :=
  flat_map (fun s => [Worker s; Yield s]) servers.

(** ** Summary statistics *)

Section Statistics.
Local Open Scope Q_scope.

Definition sum (xs : list Q) : Q := fold_right Qplus 0 xs.

(** [statistics.mean]; the caller never passes an empty list. *)
Definition mean (xs : list Q) : Q :=
    sum xs / inject_Z (Z.of_nat (List.length xs)).

(** Sample variance, the square of [statistics.stdev]; the caller
      never passes fewer than two points. *)
Definition variance (xs : list Q) : Q :=
    let m := mean xs in
    sum (map (fun x => (x - m) * (x - m)) xs)
    / inject_Z (Z.of_nat (List.length xs) - 1).

(** [max(0, x)] on numbers: the first argument wins ties. *)
Definition max0 (x : Q) : Q := if Qlt_le_dec 0 x then x else 0.
End Statistics.

(** [statistics.stdev]: the square root of the sample variance. *)
Definition stdev (xs : list Q) : R := sqrt (Q2R (variance xs)).

(** ** The rest of the loop body: summary and residual sleep *)

Record cycle_report : Type := mkReport {
  jitter : R;
  offset_mean : Q;
  elapsed : Q;
  sleep_time : Q
}.

Definition jitter_of (ds : list Q) : R :=
  if (1 <? List.length ds)%nat then stdev ds else 0%R.

Definition offset_mean_of (ds os : list Q) : Q :=
  if (1 <? List.length ds)%nat then mean os
  else match os with
       | o :: _ => o
       | [] => 0%Q
       end.

Definition summarize (e : env) (st : cycle_state) : cycle_report :=
  let el := total_seconds (now_end e) (now_start e) in
  mkReport (jitter_of (delays st))
           (offset_mean_of (delays st) (offsets st))
           el
           (max0 (300 - el)%Q).

(** What the background thread does, as seen from outside. *)
Inductive loop_event : Type :=
| CycleStart (t : datetime)
| Summary (r : cycle_report)
| Sleep (seconds : Q)
| ThreadDied.

(** [while True] unrolled once per element of [world]: each cycle comes
    with the environment it meets and the schedule of its thread pool.
    [None] when a schedule is not one the pool can produce. *)
Fixpoint ntp_monitoring_loop (world : list (env * list event))
    (db : database) : option (database * list loop_event) :=
  match world with
  | [] => Some (db, [])
  | (e, sched) :: world' =>
      match run e sched (cycle_init db) with
      | None => None
      | Some st =>
          if cycle_over st then
            if cs_raised st then
              Some (cs_db st, [CycleStart (now_start e); ThreadDied])
            else
              let r := summarize e st in
              match ntp_monitoring_loop world' (cs_db st) with
              | Some (db', tr) =>
                  Some (db', CycleStart (now_start e) :: Summary r
                             :: Sleep (sleep_time r) :: tr)
              | None => None
              end
          else None
      end
  end.

(** ** HTTP handlers *)

(** A stable sort, as [list.sort] and as the sorter behind ORDER BY are
    modelled: an element goes in front of the first one it is not
    greater than. *)
Section StableSort.
Context {A : Type} (le : A -> A -> bool).

Fixpoint insert_sorted (x : A) (l : list A) : list A :=
  match l with
  | [] => [x]
  | y :: l' => if le x y then x :: l else y :: insert_sorted x l'
  end.

Fixpoint stable_sort (l : list A) : list A :=
  match l with
  | [] => []
  | x :: l' => insert_sorted x (stable_sort l')
  end.
End StableSort.

(** [f"{x:.3f}"] *)
Definition round_half_even (q : Q) : Z :=
  let f := Qfloor q in
  match (q - inject_Z f ?= 1 # 2)%Q with
  | Lt => f
  | Gt => f + 1
  | Eq => if Z.even f then f else f + 1
  end.

Definition decimal (n : Z) : string :=
  DecimalString.NilEmpty.string_of_uint (N.to_uint (Z.to_N n)).

Definition format_3f (q : Q) : string :=
  let m := round_half_even (Qabs q * 1000)%Q in
  let frac := m mod 1000 in
  ((if Qlt_le_dec q 0 then "-" else "")
   ++ decimal (m / 1000) ++ "."
   ++ (if (frac <? 10)%Z then "00" else if (frac <? 100)%Z then "0" else "")
   ++ decimal frac)%string.

(** A JSON object whose values are all strings, keys in insertion order. *)
Definition dict : Type := list (string * string).

Fixpoint dict_get (d : dict) (k : string) : option string :=
  match d with
  | [] => None
  | (k', v) :: d' => if String.eqb k' k then Some v else dict_get d' k
  end.

(** The dict both handlers build from a fetched row. *)
Definition to_dict (r : row) : dict :=
  [ ("timestamp", timestamp r);
    ("server", server r);
    ("offset_ms", format_3f (offset_ms r));
    ("delay_ms", format_3f (delay_ms r));
    ("root_delay_ms", format_3f (root_delay_ms r));
    ("root_dispersion_ms", format_3f (root_dispersion_ms r));
    ("response_time_ms", format_3f (response_time_ms r));
    ("precision_ms", format_3f (precision_ms r));
    ("status", status r) ].

(** [SELECT MAX(t2.id) FROM ntp_data t2 WHERE t2.server = srv] *)
Fixpoint max_id (srv : string) (rows : list row) : option Z :=
  match rows with
  | [] => None
  | r :: rows' =>
      if String.eqb (server r) srv then
        match max_id srv rows' with
        | Some m => Some (Z.max (id r) m)
        | None => Some (id r)
        end
      else max_id srv rows'
  end.

(** The query of [/api/realtime], rows in table order. *)
Definition select_latest (db : database) : list row :=
  filter (fun t1 => match max_id (server t1) (table db) with
                    | Some m => id t1 =? m
                    | None => false
                    end)
         (table db).

Definition preferred_order : list string :=
  [ "14.139.60.103"; "14.139.60.106"; "14.139.60.107"; "time.nplindia.in";
    "time.nplindia.org"; "samay1.nic.in"; "samay2.nic.in"; "time.nist.gov";
    "pool.ntp.org"; "time.windows.com"; "time.google.com";
    "asia.pool.ntp.org"; "uk.pool.ntp.org"; "157.20.66.8"; "157.20.67.8" ].

(** [l.index(x)], [None] when [x not in l]. *)
Fixpoint index (x : string) (l : list string) : option Z :=
  match l with
  | [] => None
  | y :: l' =>
      if String.eqb y x then Some 0
      else match index x l' with
           | Some i => Some (i + 1)
           | None => None
           end
  end.

(** [preferred_order.index(s) if s in preferred_order else 999] *)
Definition rank (s : string) : Z :=
  match index s preferred_order with
  | Some i => i
  | None => 999
  end.

(** The sort key; every dict the handler builds has a ['server'] entry,
    so the lookup never misses. *)
Definition sort_key (x : dict) : Z :=
  match dict_get x "server" with
  | Some s => rank s
  | None => 999
  end.

(** The body of the handler's [try]; its [except] branch answers 500
    and is reached only when sqlite3 raises while reading, which a read
    of the modelled table never does. *)
Definition get_realtime_data (db : database) : list dict :=
  let rows := select_latest db in
  let data := map to_dict rows in
  stable_sort (fun x y => sort_key x <=? sort_key y) data.

(** [SELECT * FROM ntp_data WHERE server = ? ORDER BY timestamp DESC
    LIMIT 10]; the parameter is [None] when the request has no [server]
    argument, and then no row matches. *)
Definition select_history (srv : option string) (db : database) : list row :=
  match srv with
  | None => []
  | Some s =>
      firstn 10
        (stable_sort (fun a b => String.leb (timestamp b) (timestamp a))
           (filter (fun r => String.eqb (server r) s) (table db)))
  end.

Definition get_history (srv : option string) (db : database) : list dict :=
  map to_dict (select_history srv db).

(** A schedule every cycle admits: all workers finish first, then the
    loop body takes the futures in list order until one raises. *)
Fixpoint yields_until_raise (e : env) (servers : list string) : list event :=
  match servers with
  | [] => []
  | s :: rest =>
      Yield s :: (if insert_ok e s then yields_until_raise e rest else [])
  end.

Definition workers_first (e : env) : list event :=
  map Worker ntp_servers ++ yields_until_raise e ntp_servers.

(** ** Vocabulary for the statements *)

(** The row a cycle stores for a server, given the id it receives:
    what [query_ntp_server] inserts when the request raised, what
    [process_response] inserts when it returned. *)
Definition error_row (i : Z) (ts srv : string) : row :=
  mkRow i ts srv 0 0 0 0 0 0 0 "Error".

Definition online_row (i : Z) (ts srv : string) (resp : ntplib.NTPStats)
  : row :=
  let T1 := ntplib.orig_time resp in
  let T2 := ntplib.recv_time resp in
  let T3 := ntplib.tx_time resp in
  let T4 := ntplib.dest_time resp in
  mkRow i ts srv (offset_of T1 T2 T3 T4) (delay_of T1 T2 T3 T4)
        (ntplib.root_delay resp * 1000)%Q
        (ntplib.root_dispersion resp * 1000)%Q
        (ntplib.stratum resp)
        (response_time_of T2 T3)
        (precision_of (ntplib.precision resp))
        "Online".

Definition sample_of (e : env) (i : Z) (srv : string) : row :=
  match request e srv with
  | Some resp => online_row i (isoformat (now_query e srv)) srv resp
  | None => error_row i (isoformat (now_query e srv)) srv
  end.

(** What the future of a server holds once its worker has finished. *)
Definition outcome (e : env) (srv : string) : result (option probe_data) :=
  match request e srv with
  | Some resp => Ok (Some (mkProbe srv resp (isoformat (now_query e srv))))
  | None => if insert_ok e srv then Ok None else Raised
  end.

Definition is_online (r : row) : bool := String.eqb (status r) "Online".

Definition is_done_at (fs : list (string * future)) (srv : string) : bool :=
  match future_of fs srv with
  | Some f => is_done f
  | None => false
  end.

(** Whether the row of a server has been written at this point of the
    cycle: by the worker when the request raised, by the loop body when
    it returned. *)
Definition has_row (e : env) (st : cycle_state) (srv : string) : bool :=
  match request e srv with
  | None => is_done_at (future_to_server st) srv && insert_ok e srv
  | Some _ => mem srv (cs_yielded st) && insert_ok e srv
  end.

(** Rows carry distinct, increasing ids, none above the counter: what
    INTEGER PRIMARY KEY AUTOINCREMENT maintains. *)
Definition db_wf (db : database) : Prop :=
  StronglySorted Z.lt (map id (table db))
  /\ Forall (fun r => id r <= seq db) (table db).

(** The facts that hold at every point of a cycle started on [db0];
    [new] is what the cycle has appended so far. *)
Record cycle_inv (e : env) (db0 : database) (st : cycle_state)
    (new : list row) : Prop := mkInv {
  inv_table : table (cs_db st) = (table db0 ++ new)%list;
  inv_seq : seq (cs_db st) = seq db0 + Z.of_nat (List.length new);
  inv_rows : Forall (fun r => r = sample_of e (id r) (server r)) new;
  inv_ids : map id new
            = map (fun k => seq db0 + Z.of_nat k) (List.seq 1 (List.length new));
  inv_keys : map fst (future_to_server st) = ntp_servers;
  inv_futures : forall s f,
      future_of (future_to_server st) s = Some f ->
      f = Pending \/ f = Done (outcome e s);
  inv_yielded : forall s,
      mem s (cs_yielded st) = true -> is_done_at (future_to_server st) s = true;
  inv_count : forall s,
      count_occ string_dec (map server new) s
      = if has_row e st s then 1%nat else 0%nat;
  inv_delays : delays st = map delay_ms (filter is_online new);
  inv_offsets : offsets st = map offset_ms (filter is_online new);
  inv_raised : cs_raised st = true ->
      exists s, mem s (cs_yielded st) = true /\ insert_ok e s = false;
  inv_failed : forall s,
      mem s (cs_yielded st) = true -> insert_ok e s = false ->
      cs_raised st = true
}.

(** ** Concrete inputs used by the examples *)

(** An ordinary exchange: offset -4.5 ms, delay 49 ms, 1 ms of server
    processing. *)
Definition exchange_plain : ntplib.NTPStats :=
  ntplib.mkNTPStats 10 (10020 # 1000) (10021 # 1000) (10050 # 1000)
                    (5 # 1000) (12 # 1000) 2 (-20).

(** An exchange whose server-side interval exceeds the client-side one:
    the delay comes out as -3 ms. *)
Definition exchange_skewed : ntplib.NTPStats :=
  ntplib.mkNTPStats 10 (10002 # 1000) (10010 # 1000) (10005 # 1000)
                    (5 # 1000) (12 # 1000) 1 (-18).

Definition clock (us : Z) (text : string) : datetime := mkDatetime us text.

(** A cycle in which [pool.ntp.org] does not answer, every other server
    does, and the store accepts every write. *)
Definition env_one_down : env :=
  mkEnv (fun s => if String.eqb s "pool.ntp.org" then None
                  else Some exchange_plain)
        (fun s => if String.eqb s "pool.ntp.org"
                  then clock 5000000 "2024-01-01T10:00:05+05:30"
                  else clock 40000 "2024-01-01T10:00:00.040000+05:30")
        (clock 0 "2024-01-01T10:00:00+05:30")
        (clock 5001000 "2024-01-01T10:00:05.001000+05:30")
        (fun _ => true).

Definition run_or_init (e : env) (sched : list event) (db : database)
  : cycle_state :=
  match run e sched (cycle_init db) with
  | Some st => st
  | None => cycle_init db
  end.

Definition state_one_down : cycle_state :=
  run_or_init env_one_down (sequential ntp_servers) empty_db.

(** Two exchanges with round-trip delays of 10 ms and 20 ms. *)
Definition exchange_10ms : ntplib.NTPStats :=
  ntplib.mkNTPStats 0 (4 # 1000) (5 # 1000) (11 # 1000)
                    (5 # 1000) (12 # 1000) 2 (-20).

Definition exchange_20ms : ntplib.NTPStats :=
  ntplib.mkNTPStats 0 (9 # 1000) (10 # 1000) (21 # 1000)
                    (5 # 1000) (12 # 1000) 3 (-20).

(** A cycle in which only two servers answer. *)
Definition env_two_up : env :=
  mkEnv (fun s => if String.eqb s "time.nist.gov" then Some exchange_10ms
                  else if String.eqb s "time.google.com" then Some exchange_20ms
                  else None)
        (fun _ => clock 5000000 "2024-01-01T10:05:05+05:30")
        (clock 0 "2024-01-01T10:05:00+05:30")
        (clock 5001000 "2024-01-01T10:05:05.001000+05:30")
        (fun _ => true).

Definition state_two_up : cycle_state :=
  run_or_init env_two_up (sequential ntp_servers) empty_db.

(** A cycle in which every server answers but which takes 301 s. *)
Definition env_slow : env :=
  mkEnv (fun _ => Some exchange_plain)
        (fun _ => clock 301000000 "2024-01-01T10:15:01+05:30")
        (clock 0 "2024-01-01T10:10:00+05:30")
        (clock 301000000 "2024-01-01T10:15:01+05:30")
        (fun _ => true).

(** Two consecutive cycles: the slow one, then the one with two
    answering servers. *)
Definition two_cycles : list (env * list event) :=
  [ (env_slow, sequential ntp_servers);
    (env_two_up, sequential ntp_servers) ].

Definition loop_or_nothing (world : list (env * list event)) (db : database)
  : database * list loop_event :=
  match ntp_monitoring_loop world db with
  | Some p => p
  | None => (db, [])
  end.

Definition state_slow : cycle_state :=
  run_or_init env_slow (sequential ntp_servers) empty_db.

Definition state_after_slow : cycle_state :=
  run_or_init env_two_up (sequential ntp_servers) (cs_db state_slow).

(** A stored dataset with two rows for one server and a server outside
    the curated list. *)
Definition db_sample : database :=
  mkDatabase
    [ mkRow 1 "2024-01-01T10:00:00" "time.google.com" 1 10 5 12 2 1 (1 # 1000) "Online";
      mkRow 2 "2024-01-01T10:00:01" "example.org" 2 20 5 12 3 1 (1 # 1000) "Online";
      mkRow 3 "2024-01-01T10:00:02" "14.139.60.103" 0 0 0 0 0 0 0 "Error";
      mkRow 4 "2024-01-01T10:05:00" "time.google.com" (-3 # 2) 11 5 12 2 1 (1 # 1000) "Online";
      mkRow 5 "2024-01-01T10:05:01" "157.20.66.8" 4 30 5 12 1 1 (1 # 1000) "Online" ]
    5.

(** The same dataset with another value in every [stratum] cell. *)
Definition set_stratum (f : row -> Z) (db : database) : database :=
  mkDatabase
    (map (fun r => mkRow (id r) (timestamp r) (server r) (offset_ms r)
                         (delay_ms r) (root_delay_ms r) (root_dispersion_ms r)
                         (f r) (response_time_ms r) (precision_ms r)
                         (status r))
         (table db))
    (seq db).

(** The keys of the JSON objects the handlers return. *)
Definition api_keys : list string :=
  [ "timestamp"; "server"; "offset_ms"; "delay_ms"; "root_delay_ms";
    "root_dispersion_ms"; "response_time_ms"; "precision_ms"; "status" ].

(** A cycle in which every server answers and the store rejects the
    row of [157.20.66.8] only. *)
Definition env_sink_down : env :=
  mkEnv (fun _ => Some exchange_plain)
        (fun _ => clock 40000 "2024-01-01T10:20:00.040000+05:30")
        (clock 0 "2024-01-01T10:20:00+05:30")
        (clock 50000 "2024-01-01T10:20:00.050000+05:30")
        (fun s => negb (String.eqb s "157.20.66.8")).

(** All workers finish, then the loop body receives the future of
    [157.20.66.8] first. *)
Definition sched_sink_down : list event :=
  map Worker ntp_servers ++ [Yield "157.20.66.8"].

Definition state_sink_down : cycle_state :=
  run_or_init env_sink_down sched_sink_down empty_db.

(** A call of [query_ntp_server] that leaves the store as it was. *)
Definition leaves_store_untouched (e : env) (srv : string) (db : database)
  : Prop :=
  match query_ntp_server e srv db with
  | Ok (db', _) => db' = db
  | Raised => True
  end.

(** Reduce the projections of a freshly built cycle state. *)
Ltac proj_simpl :=
  cbn [cs_db future_to_server cs_yielded delays offsets cs_raised table seq].

(** The rows a cycle has added to the table it started from. *)
Definition appended (db : database) (st : cycle_state) : list row :=
  skipn (List.length (table db)) (table (cs_db st)).

(** Every row of the cycle carries the reading taken when the cycle
    started. *)
Definition stamped_with_cycle_start (e : env) (db : database)
    (st : cycle_state) : Prop :=
  Forall (fun r => timestamp r = isoformat (now_start e)) (appended db st).

(** The cycle went on after a rejected INSERT: nothing was raised out of
    the loop and every server whose row the store accepts has its row. *)
Definition sink_failure_tolerated (e : env) (db : database)
    (st : cycle_state) : Prop :=
  cs_raised st = false
  /\ forall s, In s ntp_servers -> insert_ok e s = true ->
               In s (map server (appended db st)).

(** The same exchange seen from a server whose clock is ahead by
    [theta] seconds: both server-side timestamps move. *)
Definition shift_server_clock (theta : Q) (resp : ntplib.NTPStats)
  : ntplib.NTPStats :=
  ntplib.mkNTPStats (ntplib.orig_time resp)
                    (ntplib.recv_time resp + theta)%Q
                    (ntplib.tx_time resp + theta)%Q
                    (ntplib.dest_time resp)
                    (ntplib.root_delay resp) (ntplib.root_dispersion resp)
                    (ntplib.stratum resp) (ntplib.precision resp).

(** Whether the request to a server returns. *)
Definition responds (e : env) (srv : string) : bool :=
  match request e srv with
  | Some _ => true
  | None => false
  end.

(** A cycle in which no server answers. *)
Definition env_all_down : env :=
  mkEnv (fun _ => None)
        (fun _ => clock 5000000 "2024-01-01T10:30:05+05:30")
        (clock 0 "2024-01-01T10:30:00+05:30")
        (clock 5002000 "2024-01-01T10:30:05.002000+05:30")
        (fun _ => true).

Definition state_all_down : cycle_state :=
  run_or_init env_all_down (sequential ntp_servers) empty_db.

(** The cycle with two answering servers under the other schedule. *)
Definition state_two_up_workers_first : cycle_state :=
  run_or_init env_two_up (workers_first env_two_up) empty_db.

(** The number a string of decimal digits denotes. *)
Definition digits_value (s : string) : option Z :=
  option_map (fun d => Z.of_N (N.of_uint d))
             (DecimalString.NilEmpty.uint_of_string s).

(** The servers whose worker has not finished, and those whose future
    the loop body has not received, in list order. *)
Definition pending_servers (st : cycle_state) : list string :=
  filter (fun s => negb (is_done_at (future_to_server st) s)) ntp_servers.

Definition unyielded_servers (st : cycle_state) : list string :=
  filter (fun s => negb (mem s (cs_yielded st))) ntp_servers.

(** A table with twelve rows for one server, one per day. *)
Definition db_twelve_days : database :=
  mkDatabase
    (map (fun k =>
            mkRow (Z.of_nat k)
                  ("2024-01-" ++ (if (k <? 10)%nat then "0" else "")
                   ++ decimal (Z.of_nat k))%string
                  "time.google.com" 1 10 5 12 2 1 (1 # 1000) "Online")
         (List.seq 1 12))
    12.

(** A cycle in which [time.google.com] answers as in [env_one_down] and
    nobody else does. *)
Definition env_google_only : env :=
  mkEnv (fun s => if String.eqb s "time.google.com" then Some exchange_plain
                  else None)
        (now_query env_one_down)
        (clock 0 "2024-01-01T10:40:00+05:30")
        (clock 5001000 "2024-01-01T10:40:05.001000+05:30")
        (fun _ => true).

Definition state_google_only : cycle_state :=
  run_or_init env_google_only (workers_first env_google_only) empty_db.

(** A cycle in which [pool.ntp.org] does not answer and the store
    rejects its Error row, while every other server answers and would
    have its row accepted. *)
Definition env_error_row_rejected : env :=
  mkEnv (fun s => if String.eqb s "pool.ntp.org" then None
                  else Some exchange_plain)
        (now_query env_one_down)
        (clock 0 "2024-01-01T10:50:00+05:30")
        (clock 5001000 "2024-01-01T10:50:05.001000+05:30")
        (fun s => negb (String.eqb s "pool.ntp.org")).

(** All workers finish, then the loop body receives the future of
    [pool.ntp.org] first. *)
Definition sched_error_row_rejected : list event :=
  map Worker ntp_servers ++ [Yield "pool.ntp.org"].

Definition state_error_row_rejected : cycle_state :=
  run_or_init env_error_row_rejected sched_error_row_rejected empty_db.

(** Every server of the list has exactly one row among those the cycle
    added. *)
Definition one_row_each (db : database) (st : cycle_state) : Prop :=
  forall s, In s ntp_servers ->
            count_occ string_dec (map server (appended db st)) s = 1%nat.

(** The loop slept at some point of this trace. *)
Definition has_slept (tr : list loop_event) : Prop :=
  exists seconds, In (Sleep seconds) tr.

(** * Properties *)

(** ** The table of futures *)

Lemma future_of_set_same fs s f f0 :
  future_of fs s = Some f0 -> future_of (set_future fs s f) s = Some f.
Proof.
  induction fs as [|[k g] fs IH]; simpl; [discriminate|].
  destruct (String.eqb k s) eqn:E; simpl; rewrite E; auto.
Qed.

Lemma future_of_set_other fs s s' f :
  s <> s' -> future_of (set_future fs s f) s' = future_of fs s'.
Proof.
  intros Hne. induction fs as [|[k g] fs IH]; simpl; [reflexivity|].
  destruct (String.eqb k s) eqn:E; simpl.
  - apply String.eqb_eq in E; subst k.
    destruct (String.eqb s s') eqn:E'; [|reflexivity].
    apply String.eqb_eq in E'; contradiction.
  - rewrite IH; reflexivity.
Qed.

Lemma map_fst_set_future fs s f :
  map fst (set_future fs s f) = map fst fs.
Proof.
  induction fs as [|[k g] fs IH]; simpl; [reflexivity|].
  destruct (String.eqb k s); simpl; congruence.
Qed.

Lemma future_of_none fs s :
  future_of fs s = None <-> ~ In s (map fst fs).
Proof.
  induction fs as [|[k g] fs IH]; simpl.
  - tauto.
  - destruct (String.eqb_spec k s); split; intros H.
    + discriminate.
    + exfalso; apply H; auto.
    + intros [?|?]; [contradiction|]. apply IH in H; contradiction.
    + apply IH; intros ?; apply H; auto.
Qed.

Lemma future_of_init s :
  In s ntp_servers ->
  future_of (map (fun s => (s, Pending)) ntp_servers) s = Some Pending.
Proof.
  generalize ntp_servers. intros l; induction l as [|k l IH]; simpl.
  - tauto.
  - intros H. destruct (String.eqb_spec k s); [reflexivity|].
    destruct H; [contradiction|auto].
Qed.

Lemma mem_true s l : mem s l = true <-> In s l.
Proof.
  unfold mem. rewrite existsb_exists. split.
  - intros (x & Hin & Heq). apply String.eqb_eq in Heq. subst; assumption.
  - intros H. exists s. split; [assumption|apply String.eqb_refl].
Qed.

Lemma mem_cons_other s s' l : s <> s' -> mem s' (s :: l) = mem s' l.
Proof.
  intros H. unfold mem; simpl.
  destruct (String.eqb_spec s' s); [congruence|reflexivity].
Qed.

Lemma mem_cons_same s l : mem s (s :: l) = true.
Proof. unfold mem; simpl. rewrite String.eqb_refl. reflexivity. Qed.

Lemma NoDup_ntp_servers : NoDup ntp_servers.
Proof.
  apply (NoDup_count_occ' string_dec). intros x Hx.
  simpl in Hx.
  repeat (destruct Hx as [<-|Hx]; [vm_compute; reflexivity|]).
  contradiction.
Qed.

(** ** The invariant of a cycle *)

Lemma is_done_at_set_same fs s f f0 :
  future_of fs s = Some f0 -> is_done_at (set_future fs s f) s = is_done f.
Proof.
  intros H. unfold is_done_at. rewrite (future_of_set_same _ _ _ _ H).
  reflexivity.
Qed.

Lemma is_done_at_set_other fs s s' f :
  s <> s' -> is_done_at (set_future fs s f) s' = is_done_at fs s'.
Proof.
  intros H. unfold is_done_at. rewrite future_of_set_other by assumption.
  reflexivity.
Qed.

Lemma ids_snoc (base : Z) (new : list row) (r : row) :
  map id new = map (fun k => base + Z.of_nat k) (List.seq 1 (List.length new)) ->
  id r = base + Z.of_nat (List.length new) + 1 ->
  map id (new ++ [r])
  = map (fun k => base + Z.of_nat k) (List.seq 1 (List.length (new ++ [r]))).
Proof.
  intros H Hr. rewrite length_app, Nat.add_comm. simpl List.length.
  rewrite seq_S, !map_app, H. simpl. f_equal. f_equal. lia.
Qed.

Lemma sample_of_id e i s : id (sample_of e i s) = i.
Proof. unfold sample_of. destruct (request e s); reflexivity. Qed.

Lemma sample_of_server e i s : server (sample_of e i s) = s.
Proof. unfold sample_of. destruct (request e s); reflexivity. Qed.

Lemma sample_of_online e i s :
  is_online (sample_of e i s)
  = match request e s with Some _ => true | None => false end.
Proof. unfold sample_of. destruct (request e s); reflexivity. Qed.

Lemma sample_of_self e i s :
  sample_of e i s
  = sample_of e (id (sample_of e i s)) (server (sample_of e i s)).
Proof. rewrite sample_of_id, sample_of_server. reflexivity. Qed.

Lemma count_snoc (l : list row) (r : row) (s : string) :
  count_occ string_dec (map server (l ++ [r])) s
  = (count_occ string_dec (map server l) s
     + if String.eqb (server r) s then 1 else 0)%nat.
Proof.
  rewrite map_app, count_occ_app. simpl.
  destruct (string_dec (server r) s) as [E|E].
  - rewrite (proj2 (String.eqb_eq _ _) E). reflexivity.
  - rewrite (proj2 (String.eqb_neq _ _) E). reflexivity.
Qed.

Lemma init_keys (l : list string) :
  map fst (map (fun s => (s, Pending)) l) = l.
Proof. rewrite map_map. simpl. apply map_id. Qed.

Lemma future_of_init_cases (l : list string) s f :
  future_of (map (fun s => (s, Pending)) l) s = Some f -> f = Pending.
Proof.
  induction l as [|k l IH]; simpl; [discriminate|].
  destruct (String.eqb k s); [congruence|assumption].
Qed.

Lemma cycle_inv_init e db : cycle_inv e db (cycle_init db) [].
Proof.
  constructor; unfold cycle_init;
    cbn [cs_db future_to_server cs_yielded delays offsets List.length
         map filter List.seq count_occ].
  - rewrite app_nil_r. reflexivity.
  - simpl. lia.
  - constructor.
  - reflexivity.
  - apply init_keys.
  - intros s f H. left. eapply future_of_init_cases; eassumption.
  - intros s H. discriminate.
  - intros s. unfold has_row, is_done_at.
    cbn [cs_db future_to_server cs_yielded].
    destruct (request e s); [reflexivity|].
    destruct (future_of _ s) as [f|] eqn:F; [|reflexivity].
    apply future_of_init_cases in F. subst f. reflexivity.
  - reflexivity.
  - reflexivity.
  - discriminate.
  - discriminate.
Qed.

Lemma futures_after_worker e st s :
  future_of (future_to_server st) s = Some Pending ->
  (forall s' f, future_of (future_to_server st) s' = Some f ->
                f = Pending \/ f = Done (outcome e s')) ->
  forall s' f,
    future_of (set_future (future_to_server st) s (Done (outcome e s))) s'
    = Some f ->
    f = Pending \/ f = Done (outcome e s').
Proof.
  intros F I s' f Hf. destruct (string_dec s s') as [<-|Hne].
  - rewrite (future_of_set_same _ _ _ _ F) in Hf. inversion Hf. auto.
  - rewrite future_of_set_other in Hf by assumption. eauto.
Qed.

Lemma yielded_after_worker st s f :
  future_of (future_to_server st) s = Some Pending ->
  (forall s', mem s' (cs_yielded st) = true ->
              is_done_at (future_to_server st) s' = true) ->
  forall s', mem s' (cs_yielded st) = true ->
             is_done_at (set_future (future_to_server st) s (Done f)) s' = true.
Proof.
  intros F I s' Hm. destruct (string_dec s s') as [<-|Hne].
  - rewrite (is_done_at_set_same _ _ _ _ F). reflexivity.
  - rewrite is_done_at_set_other by assumption. auto.
Qed.

Lemma worker_preserves e db0 st new s st' :
  cycle_inv e db0 st new ->
  step e (Worker s) st = Some st' ->
  exists l, cycle_inv e db0 st' (new ++ l)
            /\ cs_raised st' = cs_raised st
            /\ cs_yielded st' = cs_yielded st.
Proof.
  intros I H. cbn [step] in H.
  destruct (future_of (future_to_server st) s) as [[|r]|] eqn:F;
    try discriminate.
  unfold query_ntp_server, execute_insert in H.
  destruct (request e s) as [resp|] eqn:Rq;
    [|destruct (insert_ok e s) eqn:Hok]; inversion H; subst st'; clear H.
  - (* the request returned: the worker stores nothing *)
    exists []. rewrite app_nil_r. split; [|split; reflexivity].
    destruct I. constructor; proj_simpl; auto.
    + rewrite map_fst_set_future. assumption.
    + replace (Ok (Some (mkProbe s resp (isoformat (now_query e s)))))
        with (outcome e s) by (unfold outcome; rewrite Rq; reflexivity).
      apply futures_after_worker; assumption.
    + apply yielded_after_worker; assumption.
    + intros s'. rewrite inv_count0. unfold has_row. proj_simpl.
      destruct (request e s') eqn:R'; [reflexivity|].
      rewrite is_done_at_set_other by congruence. reflexivity.
  - (* the request raised and the Error row is committed *)
    exists [error_row (seq (cs_db st) + 1) (isoformat (now_query e s)) s].
    split; [|split; reflexivity].
    assert (Hrow : error_row (seq (cs_db st) + 1) (isoformat (now_query e s)) s
                   = sample_of e (seq (cs_db st) + 1) s).
    { unfold sample_of. rewrite Rq. reflexivity. }
    destruct I. constructor; proj_simpl.
    + rewrite inv_table0, app_assoc. reflexivity.
    + rewrite inv_seq0, length_app. simpl. lia.
    + apply Forall_app. split; [assumption|].
      constructor; [|constructor]. rewrite Hrow. apply sample_of_self.
    + apply ids_snoc; [assumption|]. simpl. lia.
    + rewrite map_fst_set_future. assumption.
    + replace (@Ok (option probe_data) None) with (outcome e s)
        by (unfold outcome; rewrite Rq, Hok; reflexivity).
      apply futures_after_worker; assumption.
    + apply yielded_after_worker; assumption.
    + intros s'. rewrite count_snoc, inv_count0. unfold has_row. proj_simpl.
      cbn [error_row server].
      destruct (String.eqb_spec s s') as [<-|Hne].
      * rewrite Rq, (is_done_at_set_same _ _ _ _ F), Hok.
        unfold is_done_at. rewrite F. reflexivity.
      * rewrite is_done_at_set_other by assumption.
        destruct (request e s'); destruct (_ && _); reflexivity.
    + rewrite filter_app. simpl. rewrite app_nil_r. assumption.
    + rewrite filter_app. simpl. rewrite app_nil_r. assumption.
    + assumption.
    + assumption.
  - (* the request raised and so did the INSERT *)
    exists []. rewrite app_nil_r. split; [|split; reflexivity].
    destruct I. constructor; proj_simpl; auto.
    + rewrite map_fst_set_future. assumption.
    + replace (@Raised (option probe_data)) with (outcome e s)
        by (unfold outcome; rewrite Rq, Hok; reflexivity).
      apply futures_after_worker; assumption.
    + apply yielded_after_worker; assumption.
    + intros s'. rewrite inv_count0. unfold has_row. proj_simpl.
      destruct (String.eqb_spec s s') as [<-|Hne].
      * rewrite Rq, Hok, !andb_false_r. reflexivity.
      * rewrite is_done_at_set_other by assumption. reflexivity.
Qed.

Lemma yielded_after_yield st s r :
  future_of (future_to_server st) s = Some (Done r) ->
  (forall s', mem s' (cs_yielded st) = true ->
              is_done_at (future_to_server st) s' = true) ->
  forall s', mem s' (s :: cs_yielded st) = true ->
             is_done_at (future_to_server st) s' = true.
Proof.
  intros F I s' Hm. destruct (string_dec s s') as [<-|Hne].
  - unfold is_done_at. rewrite F. reflexivity.
  - rewrite mem_cons_other in Hm by assumption. auto.
Qed.

Lemma online_row_sample e i s resp :
  request e s = Some resp ->
  online_row i (isoformat (now_query e s)) s resp = sample_of e i s.
Proof. intros H. unfold sample_of. rewrite H. reflexivity. Qed.

Lemma yield_preserves e db0 st new s st' :
  cycle_inv e db0 st new ->
  step e (Yield s) st = Some st' ->
  exists l, cycle_inv e db0 st' (new ++ l)
            /\ cs_raised st = false
            /\ mem s (cs_yielded st) = false
            /\ cs_yielded st' = s :: cs_yielded st
            /\ future_to_server st' = future_to_server st.
Proof.
  intros I H. cbn [step] in H.
  destruct (cs_raised st) eqn:R; [discriminate|].
  destruct (mem s (cs_yielded st)) eqn:M; [discriminate|].
  destruct (future_of (future_to_server st) s) as [[|r]|] eqn:F;
    try discriminate.
  destruct (inv_futures _ _ _ _ I _ _ F) as [E|E]; [discriminate|].
  inversion E; subst r; clear E.
  unfold outcome in H.
  destruct (request e s) as [resp|] eqn:Rq;
    [unfold process_response, execute_insert in H;
     cbn [pd_server pd_response pd_timestamp] in H|];
    destruct (insert_ok e s) eqn:Hok; inversion H; subst st'; clear H.
  - (* the request had returned and the Online row is committed *)
    exists [sample_of e (seq (cs_db st) + 1) s].
    refine (conj _ (conj eq_refl (conj eq_refl (conj eq_refl eq_refl)))).
    destruct I. constructor; proj_simpl; auto.
    + rewrite inv_table0, app_assoc.
      rewrite <- (online_row_sample _ _ _ _ Rq). reflexivity.
    + rewrite inv_seq0, length_app. simpl. lia.
    + apply Forall_app. split; [assumption|].
      constructor; [|constructor]. apply sample_of_self.
    + apply ids_snoc; [assumption|]. rewrite sample_of_id. lia.
    + eapply yielded_after_yield; eassumption.
    + intros s'. rewrite count_snoc, inv_count0, sample_of_server.
      unfold has_row. proj_simpl.
      destruct (String.eqb_spec s s') as [<-|Hne].
      * rewrite Rq, M, mem_cons_same, Hok. reflexivity.
      * rewrite mem_cons_other by assumption.
        destruct (request e s'); destruct (_ && _); reflexivity.
    + rewrite filter_app, map_app, inv_delays0. simpl.
      rewrite sample_of_online, Rq. simpl.
      rewrite <- (online_row_sample _ (seq (cs_db st) + 1) _ _ Rq).
      reflexivity.
    + rewrite filter_app, map_app, inv_offsets0. simpl.
      rewrite sample_of_online, Rq. simpl.
      rewrite <- (online_row_sample _ (seq (cs_db st) + 1) _ _ Rq).
      reflexivity.
    + discriminate.
    + intros s' Hm Hf. destruct (string_dec s s') as [<-|Hne]; [congruence|].
      rewrite mem_cons_other in Hm by assumption.
      rewrite (inv_failed0 _ Hm Hf) in R. discriminate.
  - (* the request had returned and the INSERT raises *)
    exists []. rewrite app_nil_r.
    refine (conj _ (conj eq_refl (conj eq_refl (conj eq_refl eq_refl)))).
    destruct I. constructor; proj_simpl; auto.
    + eapply yielded_after_yield; eassumption.
    + intros s'. rewrite inv_count0. unfold has_row. proj_simpl.
      destruct (String.eqb_spec s s') as [<-|Hne].
      * rewrite Rq, Hok, !andb_false_r. reflexivity.
      * rewrite mem_cons_other by assumption. reflexivity.
    + intros _. exists s. split; [apply mem_cons_same|assumption].
  - (* the request had raised; its Error row is already there *)
    exists []. rewrite app_nil_r.
    refine (conj _ (conj eq_refl (conj eq_refl (conj eq_refl eq_refl)))).
    destruct I. constructor; proj_simpl; auto.
    + eapply yielded_after_yield; eassumption.
    + intros s'. rewrite inv_count0. unfold has_row. proj_simpl.
      destruct (request e s') eqn:R'; [|reflexivity].
      rewrite mem_cons_other by congruence. reflexivity.
    + discriminate.
    + intros s' Hm Hf. destruct (string_dec s s') as [<-|Hne]; [congruence|].
      rewrite mem_cons_other in Hm by assumption.
      rewrite (inv_failed0 _ Hm Hf) in R. discriminate.
  - (* the worker had raised: [future.result()] re-raises *)
    exists []. rewrite app_nil_r.
    refine (conj _ (conj eq_refl (conj eq_refl (conj eq_refl eq_refl)))).
    destruct I. constructor; proj_simpl; auto.
    + eapply yielded_after_yield; eassumption.
    + intros s'. rewrite inv_count0. unfold has_row. proj_simpl.
      destruct (request e s') eqn:R'; [|reflexivity].
      rewrite mem_cons_other by congruence. reflexivity.
    + intros _. exists s. split; [apply mem_cons_same|assumption].
Qed.

Lemma step_preserves e db0 st new ev st' :
  cycle_inv e db0 st new ->
  step e ev st = Some st' ->
  exists l, cycle_inv e db0 st' (new ++ l).
Proof.
  intros I H. destruct ev as [s|s].
  - destruct (worker_preserves _ _ _ _ _ _ I H) as (l & ? & _). eauto.
  - destruct (yield_preserves _ _ _ _ _ _ I H) as (l & ? & _). eauto.
Qed.

Lemma run_preserves e db0 sched : forall st new st',
  cycle_inv e db0 st new ->
  run e sched st = Some st' ->
  exists l, cycle_inv e db0 st' (new ++ l).
Proof.
  induction sched as [|ev sched IH]; intros st new st' I H; simpl in H.
  - inversion H; subst. exists []. rewrite app_nil_r. assumption.
  - destruct (step e ev st) as [st1|] eqn:S; [|discriminate].
    destruct (step_preserves _ _ _ _ _ _ I S) as (l1 & I1).
    destruct (IH _ _ _ I1 H) as (l2 & I2).
    exists (l1 ++ l2). rewrite app_assoc. assumption.
Qed.

(** Every state a cycle reaches satisfies the invariant. *)
Lemma cycle_invariant e db sched st :
  run e sched (cycle_init db) = Some st ->
  exists new, cycle_inv e db st new.
Proof.
  intros H.
  destruct (run_preserves _ _ _ _ _ _ (cycle_inv_init e db) H) as (l & I).
  exists l. exact I.
Qed.

(** ** The end of a cycle *)

Lemma all_done_at (fs : list (string * future)) :
  forallb (fun p => is_done (snd p)) fs = true ->
  forall s, In s (map fst fs) -> is_done_at fs s = true.
Proof.
  unfold is_done_at.
  induction fs as [|[k f] fs IH]; simpl; intros H s Hin; [contradiction|].
  apply andb_true_iff in H. destruct H as [Hf Hrest].
  destruct (String.eqb_spec k s) as [->|Hne]; [assumption|].
  destruct Hin as [?|Hin]; [contradiction|]. apply IH; assumption.
Qed.

Lemma all_yielded (fs : list (string * future)) (yl : list string) :
  forallb (fun p => mem (fst p) yl) fs = true ->
  forall s, In s (map fst fs) -> mem s yl = true.
Proof.
  induction fs as [|[k f] fs IH]; simpl; intros H s Hin; [contradiction|].
  apply andb_true_iff in H. destruct H as [Hk Hrest].
  destruct Hin as [<-|Hin]; [assumption|]. apply IH; assumption.
Qed.

Lemma is_done_at_in fs s : is_done_at fs s = true -> In s (map fst fs).
Proof.
  unfold is_done_at. intros H.
  destruct (in_dec string_dec s (map fst fs)) as [Hin|Hin]; [assumption|].
  apply future_of_none in Hin. rewrite Hin in H. discriminate.
Qed.

(** Only servers of the list are ever handed to the loop body. *)
Lemma yielded_in_roster e db st new s :
  cycle_inv e db st new -> mem s (cs_yielded st) = true -> In s ntp_servers.
Proof.
  intros I H. rewrite <- (inv_keys _ _ _ _ I).
  apply is_done_at_in. apply (inv_yielded _ _ _ _ I). assumption.
Qed.

(** When the store accepts every write, no exception leaves the loop. *)
Lemma no_raise e db st new :
  cycle_inv e db st new ->
  (forall s, In s ntp_servers -> insert_ok e s = true) ->
  cs_raised st = false.
Proof.
  intros I Hok. destruct (cs_raised st) eqn:R; [|reflexivity].
  destruct (inv_raised _ _ _ _ I R) as (s & Hm & Hf).
  rewrite (Hok s (yielded_in_roster _ _ _ _ _ I Hm)) in Hf. discriminate.
Qed.

Lemma has_row_outside e db st new s :
  cycle_inv e db st new -> ~ In s ntp_servers -> has_row e st s = false.
Proof.
  intros I Hout. unfold has_row.
  destruct (request e s).
  - destruct (mem s (cs_yielded st)) eqn:M; [|reflexivity].
    exfalso. apply Hout. eapply yielded_in_roster; eassumption.
  - destruct (is_done_at (future_to_server st) s) eqn:D; [|reflexivity].
    exfalso. apply Hout. rewrite <- (inv_keys _ _ _ _ I).
    apply is_done_at_in. assumption.
Qed.

Lemma has_row_at_end e db st new s :
  cycle_inv e db st new ->
  cycle_over st = true ->
  cs_raised st = false ->
  In s ntp_servers ->
  has_row e st s = insert_ok e s.
Proof.
  intros I Hover R Hin. unfold cycle_over in Hover.
  apply andb_true_iff in Hover. destruct Hover as [Hd Hy].
  rewrite R in Hy. simpl in Hy.
  rewrite <- (inv_keys _ _ _ _ I) in Hin.
  unfold has_row.
  rewrite (all_done_at _ Hd _ Hin), (all_yielded _ _ Hy _ Hin).
  destruct (request e s); reflexivity.
Qed.

Lemma count_in_roster s :
  In s ntp_servers -> count_occ string_dec ntp_servers s = 1%nat.
Proof. apply NoDup_count_occ'. apply NoDup_ntp_servers. Qed.

Lemma sample_of_error e i s :
  request e s = None ->
  sample_of e i s = error_row i (isoformat (now_query e s)) s.
Proof. intros H. unfold sample_of. rewrite H. reflexivity. Qed.

(** C4 (as stated) fails: when the store rejects the Error row of the
    one server that did not answer, the exception ends the result loop;
    the finished cycle has added no row at all, neither the Error row of
    that server nor a row for any of the fourteen servers that answered
    and whose rows the store would have taken. *)
Lemma no_row_when_store_rejects :
  run env_error_row_rejected sched_error_row_rejected (cycle_init empty_db)
  = Some state_error_row_rejected
  /\ cycle_over state_error_row_rejected = true
  /\ ~ one_row_each empty_db state_error_row_rejected
  /\ appended empty_db state_error_row_rejected = []
  /\ request env_error_row_rejected "pool.ntp.org" = None
  /\ (forall s, In s ntp_servers -> s <> "pool.ntp.org" ->
                request env_error_row_rejected s <> None
                /\ insert_ok env_error_row_rejected s = true).
Proof.
  assert (A : appended empty_db state_error_row_rejected = [])
    by (vm_compute; reflexivity).
  split; [vm_compute; reflexivity|]. split; [vm_compute; reflexivity|].
  split; [|split; [exact A|split; [reflexivity|]]].
  - intros H.
    assert (Hin : In "pool.ntp.org" ntp_servers) by (simpl; tauto).
    specialize (H "pool.ntp.org" Hin). rewrite A in H. discriminate.
  - intros s _ Hne. cbn. apply String.eqb_neq in Hne. rewrite Hne.
    split; [discriminate|reflexivity].
Qed.

(** C4 (amended). In a finished cycle whose writes the store accepts,
    the rows appended are exactly one per server of [ntp_servers],
    whether its request returned or raised; the row of a server whose
    request raised has status ["Error"] and zero in every numeric
    column, the row of one whose request returned has status
    ["Online"]. *)
Theorem one_sample_per_server (e : env) (sched : list event)
    (db : database) (st : cycle_state) :
  (forall s, In s ntp_servers -> insert_ok e s = true) ->
  run e sched (cycle_init db) = Some st ->
  cycle_over st = true ->
  exists new,
    table (cs_db st) = table db ++ new
    /\ Permutation (map server new) ntp_servers
    /\ (forall s, In s ntp_servers ->
                  count_occ string_dec (map server new) s = 1%nat)
    /\ Forall (fun r =>
                 match request e (server r) with
                 | None =>
                     status r = "Error"
                     /\ offset_ms r = 0%Q /\ delay_ms r = 0%Q
                     /\ root_delay_ms r = 0%Q /\ root_dispersion_ms r = 0%Q
                     /\ stratum r = 0 /\ response_time_ms r = 0%Q
                     /\ precision_ms r = 0%Q
                 | Some _ => status r = "Online"
                 end) new.
Proof.
  intros Hok Hrun Hover.
  destruct (cycle_invariant _ _ _ _ Hrun) as (new & I).
  pose proof (no_raise _ _ _ _ I Hok) as R.
  assert (Hcount : forall s, count_occ string_dec (map server new) s
                             = count_occ string_dec ntp_servers s).
  { intros s. rewrite (inv_count _ _ _ _ I).
    destruct (in_dec string_dec s ntp_servers) as [Hin|Hout].
    - rewrite (has_row_at_end _ _ _ _ _ I Hover R Hin), (Hok _ Hin).
      symmetry. apply count_in_roster. assumption.
    - rewrite (has_row_outside _ _ _ _ _ I Hout).
      symmetry. apply count_occ_not_In. assumption. }
  exists new. split; [apply (inv_table _ _ _ _ I)|]. split; [|split].
  - apply (Permutation_count_occ string_dec). assumption.
  - intros s Hin. rewrite Hcount. apply count_in_roster. assumption.
  - eapply Forall_impl; [|apply (inv_rows _ _ _ _ I)].
    intros r Hr. cbv beta in Hr.
    destruct (request e (server r)) as [resp|] eqn:Rq.
    + rewrite Hr. unfold sample_of. rewrite Rq. reflexivity.
    + rewrite Hr, (sample_of_error _ _ _ Rq). cbn. repeat split; reflexivity.
Qed.

Lemma one_sample_per_server_witness :
  exists new,
    table (cs_db state_one_down) = table empty_db ++ new
    /\ Permutation (map server new) ntp_servers
    /\ (forall s, In s ntp_servers ->
                  count_occ string_dec (map server new) s = 1%nat)
    /\ Forall (fun r =>
                 match request env_one_down (server r) with
                 | None =>
                     status r = "Error"
                     /\ offset_ms r = 0%Q /\ delay_ms r = 0%Q
                     /\ root_delay_ms r = 0%Q /\ root_dispersion_ms r = 0%Q
                     /\ stratum r = 0 /\ response_time_ms r = 0%Q
                     /\ precision_ms r = 0%Q
                 | Some _ => status r = "Online"
                 end) new.
Proof.
  apply (one_sample_per_server env_one_down (sequential ntp_servers)
           empty_db state_one_down).
  - intros s _. reflexivity.
  - vm_compute. reflexivity.
  - vm_compute. reflexivity.
Defined.

(** ** process_response: the arithmetic *)

(** C1. For a returned exchange whose row the store accepts,
    [process_response] stores one row and returns the dict with the
    same offset and delay; offset, delay and response time are the
    closed formulas over T1..T4, in milliseconds, and the delay is
    stored as computed, negative when the formula is negative. *)
Theorem process_response_metrics (e : env) (srv ts : string)
    (resp : ntplib.NTPStats) (db : database) :
  insert_ok e srv = true ->
  exists r,
    process_response e (Some (mkProbe srv resp ts)) db
    = Ok (mkDatabase (table db ++ [r]) (seq db + 1),
          Some (mkMetrics (offset_ms r) (delay_ms r)))
    /\ status r = "Online"
    /\ offset_ms r
       = (((ntplib.recv_time resp - ntplib.orig_time resp)
           + (ntplib.tx_time resp - ntplib.dest_time resp)) / 2 * 1000)%Q
    /\ delay_ms r
       = (((ntplib.dest_time resp - ntplib.orig_time resp)
           - (ntplib.tx_time resp - ntplib.recv_time resp)) * 1000)%Q
    /\ response_time_ms r
       = ((ntplib.tx_time resp - ntplib.recv_time resp) * 1000)%Q
    /\ (((ntplib.dest_time resp - ntplib.orig_time resp)
         - (ntplib.tx_time resp - ntplib.recv_time resp) < 0)%Q ->
        (delay_ms r < 0)%Q).
Proof.
  intros Hok.
  exists (online_row (seq db + 1) ts srv resp).
  unfold process_response, execute_insert.
  cbn [pd_server pd_response pd_timestamp]. rewrite Hok.
  repeat split.
  cbn [online_row delay_ms]. unfold delay_of. intros H. Lqa.lra.
Qed.

Lemma process_response_metrics_witness :
  exists r,
    process_response env_one_down
      (Some (mkProbe "time.google.com" exchange_skewed "2024-01-01T10:00:00"))
      empty_db
    = Ok (mkDatabase (table empty_db ++ [r]) (seq empty_db + 1),
          Some (mkMetrics (offset_ms r) (delay_ms r)))
    /\ status r = "Online"
    /\ offset_ms r
       = (((ntplib.recv_time exchange_skewed - ntplib.orig_time exchange_skewed)
           + (ntplib.tx_time exchange_skewed
              - ntplib.dest_time exchange_skewed)) / 2 * 1000)%Q
    /\ delay_ms r
       = (((ntplib.dest_time exchange_skewed
            - ntplib.orig_time exchange_skewed)
           - (ntplib.tx_time exchange_skewed
              - ntplib.recv_time exchange_skewed)) * 1000)%Q
    /\ response_time_ms r
       = ((ntplib.tx_time exchange_skewed
           - ntplib.recv_time exchange_skewed) * 1000)%Q
    /\ (((ntplib.dest_time exchange_skewed - ntplib.orig_time exchange_skewed)
         - (ntplib.tx_time exchange_skewed
            - ntplib.recv_time exchange_skewed) < 0)%Q ->
        (delay_ms r < 0)%Q).
Proof.
  apply (process_response_metrics env_one_down "time.google.com"
           "2024-01-01T10:00:00" exchange_skewed empty_db).
  reflexivity.
Defined.

(** The skewed exchange: offset 3.5 ms, delay -3 ms, response time 8 ms. *)
Example skewed_exchange_values :
  (offset_of 10 (10002 # 1000) (10010 # 1000) (10005 # 1000) == 7 # 2)%Q
  /\ (delay_of 10 (10002 # 1000) (10010 # 1000) (10005 # 1000) == -3)%Q
  /\ (response_time_of (10002 # 1000) (10010 # 1000) == 8)%Q.
Proof. repeat split. Qed.

(** Every Online row a cycle stores carries the formulas applied to the
    exchange the server answered with. *)
Lemma online_rows_of_cycle (e : env) (sched : list event) (db : database)
    (st : cycle_state) :
  run e sched (cycle_init db) = Some st ->
  forall r, In r (table (cs_db st)) -> ~ In r (table db) ->
  r = sample_of e (id r) (server r).
Proof.
  intros Hrun r Hin Hold.
  destruct (cycle_invariant _ _ _ _ Hrun) as (new & I).
  rewrite (inv_table _ _ _ _ I) in Hin. apply in_app_or in Hin.
  destruct Hin as [?|Hin]; [contradiction|].
  pose proof (inv_rows _ _ _ _ I) as Hr. rewrite Forall_forall in Hr. auto.
Qed.

(** ** query_ntp_server and the store *)

(** C6 (as stated) fails: when the request raises, [query_ntp_server]
    itself inserts the Error row. *)
Lemma prober_writes_on_failure :
  query_ntp_server env_one_down "pool.ntp.org" empty_db
  = Ok (mkDatabase
          [mkRow 1 "2024-01-01T10:00:05+05:30" "pool.ntp.org"
                 0 0 0 0 0 0 0 "Error"] 1,
        None)
  /\ ~ leaves_store_untouched env_one_down "pool.ntp.org" empty_db.
Proof.
  split; [reflexivity|].
  unfold leaves_store_untouched. cbn. discriminate.
Qed.

(** C6 (amended). [query_ntp_server] leaves the store untouched when the
    request returns, and hands the exchange over; when the request
    raises it appends the Error row itself and returns [None], or
    raises if that INSERT is rejected.  The Online row is written later,
    by [process_response]. *)
Theorem prober_storage_effect (e : env) (srv : string) (db : database) :
  match request e srv with
  | Some resp =>
      query_ntp_server e srv db
      = Ok (db, Some (mkProbe srv resp (isoformat (now_query e srv))))
      /\ leaves_store_untouched e srv db
  | None =>
      if insert_ok e srv then
        query_ntp_server e srv db
        = Ok (mkDatabase
                (table db
                 ++ [error_row (seq db + 1) (isoformat (now_query e srv)) srv])
                (seq db + 1),
              None)
        /\ ~ leaves_store_untouched e srv db
      else query_ntp_server e srv db = Raised
  end.
Proof.
  unfold leaves_store_untouched, query_ntp_server, execute_insert.
  destruct (request e srv) as [resp|]; [split; reflexivity|].
  destruct (insert_ok e srv); [|reflexivity].
  split; [reflexivity|].
  intros H. apply (f_equal table) in H. cbn [table] in H.
  apply (f_equal (@List.length row)) in H. rewrite length_app in H.
  simpl in H. lia.
Qed.

(** ** Timestamps *)

(** C7 (as stated) fails: in this cycle one row carries the instant its
    own query finished at 10:00:05, another 10:00:00.04, and neither is
    the instant the cycle started. *)
Lemma timestamps_differ_within_cycle :
  ~ stamped_with_cycle_start env_one_down empty_db state_one_down
  /\ exists r1 r2,
       In r1 (appended empty_db state_one_down)
       /\ In r2 (appended empty_db state_one_down)
       /\ timestamp r1 <> timestamp r2
       /\ timestamp r1 <> isoformat (now_start env_one_down)
       /\ timestamp r2 <> isoformat (now_start env_one_down).
Proof.
  assert (H1 : In (error_row 11 "2024-01-01T10:00:05+05:30" "pool.ntp.org")
                  (appended empty_db state_one_down))
    by (vm_compute; tauto).
  assert (H2 : In (sample_of env_one_down 1 "157.20.66.8")
                  (appended empty_db state_one_down))
    by (vm_compute; tauto).
  split.
  - unfold stamped_with_cycle_start. rewrite Forall_forall. intros H.
    specialize (H _ H1). vm_compute in H. discriminate.
  - exists (error_row 11 "2024-01-01T10:00:05+05:30" "pool.ntp.org").
    exists (sample_of env_one_down 1 "157.20.66.8").
    split; [exact H1|]. split; [exact H2|].
    repeat split; vm_compute; discriminate.
Qed.

(** C7 (amended). The timestamp of every row appended in a cycle is the
    clock reading taken inside [query_ntp_server] for that row's server,
    after its request returned or raised. *)
Theorem timestamp_is_query_time (e : env) (sched : list event)
    (db : database) (st : cycle_state) :
  run e sched (cycle_init db) = Some st ->
  exists new,
    table (cs_db st) = table db ++ new
    /\ Forall (fun r => timestamp r = isoformat (now_query e (server r))) new.
Proof.
  intros Hrun. destruct (cycle_invariant _ _ _ _ Hrun) as (new & I).
  exists new. split; [apply (inv_table _ _ _ _ I)|].
  eapply Forall_impl; [|apply (inv_rows _ _ _ _ I)].
  intros r Hr. cbv beta in Hr. rewrite Hr at 1.
  unfold sample_of. destruct (request e (server r)); reflexivity.
Qed.

Lemma timestamp_is_query_time_witness :
  exists new,
    table (cs_db state_one_down) = table empty_db ++ new
    /\ Forall (fun r => timestamp r
                        = isoformat (now_query env_one_down (server r))) new.
Proof.
  apply (timestamp_is_query_time env_one_down (sequential ntp_servers)
           empty_db state_one_down).
  vm_compute. reflexivity.
Defined.

(** ** Summary statistics *)

Lemma sum_Qeq xs ys : Forall2 Qeq xs ys -> (sum xs == sum ys)%Q.
Proof.
  induction 1 as [|x y xs ys Hxy _ IH]; simpl; [reflexivity|].
  rewrite Hxy, IH. reflexivity.
Qed.

Lemma mean_Qeq xs ys : Forall2 Qeq xs ys -> (mean xs == mean ys)%Q.
Proof.
  intros H. unfold mean.
  rewrite (sum_Qeq _ _ H), (Forall2_length H). reflexivity.
Qed.

Lemma squares_Qeq (m m' : Q) xs ys :
  (m == m')%Q -> Forall2 Qeq xs ys ->
  Forall2 Qeq (map (fun x => (x - m) * (x - m))%Q xs)
              (map (fun x => (x - m') * (x - m'))%Q ys).
Proof.
  intros Hm. induction 1 as [|x y xs ys Hxy _ IH]; simpl; constructor.
  - rewrite Hxy, Hm. reflexivity.
  - assumption.
Qed.

Lemma variance_Qeq xs ys : Forall2 Qeq xs ys -> (variance xs == variance ys)%Q.
Proof.
  intros H. unfold variance.
  rewrite (sum_Qeq _ _ (squares_Qeq _ _ _ _ (mean_Qeq _ _ H) H)).
  rewrite (Forall2_length H). reflexivity.
Qed.

Lemma stdev_10_20 ds :
  Forall2 Qeq ds [10%Q; 20%Q] ->
  stdev ds = sqrt 50 /\ (7.071 < stdev ds < 7.0711)%R.
Proof.
  intros H. unfold stdev.
  assert (E : Q2R (variance ds) = 50%R).
  { assert (V : (variance ds == 50)%Q).
    { rewrite (variance_Qeq _ _ H). vm_compute. reflexivity. }
    rewrite (Qeq_eqR _ _ V). unfold Q2R. simpl. lra. }
  rewrite E. split; [reflexivity|]. split.
  - rewrite <- (sqrt_square 7.071) by lra. apply sqrt_lt_1_alt. lra.
  - rewrite <- (sqrt_square 7.0711) by lra. apply sqrt_lt_1_alt. lra.
Qed.

Lemma leb_2_ltb_1 (n : nat) : (2 <=? n)%nat = (1 <? n)%nat.
Proof. reflexivity. Qed.

(** C2. The jitter of a cycle is the sample standard deviation of the
    delays of the Online rows the cycle stored (Error rows do not
    count), and 0 when fewer than two rows are Online; for Online delays
    of 10 ms and 20 ms it is the square root of 50, about 7.071 ms. *)
Theorem jitter_over_online_delays (e : env) (sched : list event)
    (db : database) (st : cycle_state) :
  run e sched (cycle_init db) = Some st ->
  exists new,
    table (cs_db st) = table db ++ new
    /\ jitter (summarize e st)
       = (if (2 <=? List.length (filter is_online new))%nat
          then stdev (map delay_ms (filter is_online new))
          else 0%R)
    /\ ((List.length (filter is_online new) < 2)%nat ->
        jitter (summarize e st) = 0%R)
    /\ (Forall2 Qeq (map delay_ms (filter is_online new)) [10%Q; 20%Q] ->
        jitter (summarize e st) = sqrt 50
        /\ (7.071 < jitter (summarize e st) < 7.0711)%R).
Proof.
  intros Hrun. destruct (cycle_invariant _ _ _ _ Hrun) as (new & I).
  exists new. split; [apply (inv_table _ _ _ _ I)|].
  assert (J : jitter (summarize e st)
              = if (2 <=? List.length (filter is_online new))%nat
                then stdev (map delay_ms (filter is_online new))
                else 0%R).
  { cbn [summarize jitter]. unfold jitter_of.
    rewrite (inv_delays _ _ _ _ I), length_map, leb_2_ltb_1. reflexivity. }
  split; [exact J|]. split.
  - intros Hlt. rewrite J.
    destruct (Nat.leb_spec 2 (List.length (filter is_online new)));
      [lia|reflexivity].
  - intros H. rewrite J.
    pose proof (Forall2_length H) as L. rewrite length_map in L.
    rewrite L. cbn [List.length Nat.leb]. apply stdev_10_20. assumption.
Qed.

Lemma jitter_over_online_delays_witness :
  exists new,
    table (cs_db state_two_up) = table empty_db ++ new
    /\ jitter (summarize env_two_up state_two_up)
       = (if (2 <=? List.length (filter is_online new))%nat
          then stdev (map delay_ms (filter is_online new))
          else 0%R)
    /\ ((List.length (filter is_online new) < 2)%nat ->
        jitter (summarize env_two_up state_two_up) = 0%R)
    /\ (Forall2 Qeq (map delay_ms (filter is_online new)) [10%Q; 20%Q] ->
        jitter (summarize env_two_up state_two_up) = sqrt 50
        /\ (7.071 < jitter (summarize env_two_up state_two_up) < 7.0711)%R).
Proof.
  apply (jitter_over_online_delays env_two_up (sequential ntp_servers)
           empty_db state_two_up).
  vm_compute. reflexivity.
Defined.

(** The cycle with two answering servers, worked out: thirteen Error
    rows are stored and ignored, the delays are 10 ms and 20 ms. *)
Example two_up_delays :
  List.length (table (cs_db state_two_up)) = 15%nat
  /\ Forall2 Qeq (delays state_two_up) [10%Q; 20%Q].
Proof.
  split; [vm_compute; reflexivity|].
  remember (delays state_two_up) as ds eqn:E. vm_compute in E. subst ds.
  constructor; [reflexivity|]. constructor; [reflexivity|]. constructor.
Qed.

Example two_up_jitter :
  (7.071 < jitter (summarize env_two_up state_two_up) < 7.0711)%R.
Proof.
  cbn [summarize jitter]. unfold jitter_of.
  pose proof (proj2 two_up_delays) as H.
  rewrite (Forall2_length H). cbn [List.length Nat.ltb Nat.leb].
  apply stdev_10_20. assumption.
Qed.

Example jitter_of_few :
  jitter_of [] = 0%R /\ forall d, jitter_of [d] = 0%R.
Proof. split; reflexivity. Qed.

Lemma mean_single (x : Q) : (x == mean [x])%Q.
Proof. unfold mean, sum. simpl. field. Qed.

(** C3. The mean offset of a cycle is the arithmetic mean of the offsets
    of the Online rows the cycle stored: 0 when there is none, the
    offset itself when there is one, the sum divided by the count in
    every non-empty case. *)
Theorem mean_offset_over_online (e : env) (sched : list event)
    (db : database) (st : cycle_state) :
  run e sched (cycle_init db) = Some st ->
  exists new,
    table (cs_db st) = table db ++ new
    /\ (filter is_online new = [] -> offset_mean (summarize e st) = 0%Q)
    /\ (forall r, filter is_online new = [r] ->
                  offset_mean (summarize e st) = offset_ms r)
    /\ (filter is_online new <> [] ->
        (offset_mean (summarize e st)
         == sum (map offset_ms (filter is_online new))
            / inject_Z (Z.of_nat (List.length (filter is_online new))))%Q).
Proof.
  intros Hrun. destruct (cycle_invariant _ _ _ _ Hrun) as (new & I).
  exists new. split; [apply (inv_table _ _ _ _ I)|].
  cbn [summarize offset_mean]. unfold offset_mean_of.
  rewrite (inv_delays _ _ _ _ I), (inv_offsets _ _ _ _ I), length_map.
  destruct (filter is_online new) as [|a [|b l]]; (split; [|split]).
  - reflexivity.
  - discriminate.
  - intros H. exfalso. apply H. reflexivity.
  - discriminate.
  - intros r H. inversion H. reflexivity.
  - intros _. apply mean_single.
  - discriminate.
  - discriminate.
  - intros _. cbn [List.length Nat.ltb Nat.leb]. unfold mean.
    rewrite length_map. reflexivity.
Qed.

Lemma mean_offset_over_online_witness :
  exists new,
    table (cs_db state_two_up) = table empty_db ++ new
    /\ (filter is_online new = [] ->
        offset_mean (summarize env_two_up state_two_up) = 0%Q)
    /\ (forall r, filter is_online new = [r] ->
                  offset_mean (summarize env_two_up state_two_up)
                  = offset_ms r)
    /\ (filter is_online new <> [] ->
        (offset_mean (summarize env_two_up state_two_up)
         == sum (map offset_ms (filter is_online new))
            / inject_Z (Z.of_nat (List.length (filter is_online new))))%Q).
Proof.
  apply (mean_offset_over_online env_two_up (sequential ntp_servers)
           empty_db state_two_up).
  vm_compute. reflexivity.
Defined.

(** The cycle with one silent server, worked out: fourteen Online rows,
    each with offset -4.5 ms. *)
Example one_down_mean_offset :
  (offset_mean (summarize env_one_down state_one_down) == - (9 # 2))%Q.
Proof. vm_compute. reflexivity. Qed.

Example offset_mean_of_none : offset_mean_of [] [] = 0%Q.
Proof. reflexivity. Qed.

(** ** The residual sleep *)

Lemma max0_Qmax (x : Q) : max0 x = Qmax 0 x.
Proof.
  unfold max0, Qmax, GenericMinMax.gmax.
  destruct (Qlt_le_dec 0 x) as [H|H].
  - rewrite (proj1 (Qlt_alt 0 x) H). reflexivity.
  - destruct (Qcompare 0 x) eqn:C; try reflexivity.
    exfalso. apply (Qlt_not_le _ _ (proj2 (Qlt_alt 0 x) C)). assumption.
Qed.

Lemma max0_ms (x : Q) :
  (max0 (300 - x) * 1000 == Qmax 0 (300000 - x * 1000))%Q.
Proof.
  unfold max0. destruct (Qlt_le_dec 0 (300 - x)) as [H|H].
  - rewrite Q.max_r by Lqa.lra. Lqa.lra.
  - rewrite Q.max_l by Lqa.lra. Lqa.lra.
Qed.

Lemma max0_zero (x : Q) : (300 <= x)%Q -> max0 (300 - x) = 0%Q.
Proof.
  intros H. unfold max0.
  destruct (Qlt_le_dec 0 (300 - x)) as [H'|H']; [|reflexivity].
  exfalso. Lqa.lra.
Qed.

Lemma loop_starts_with_cycle e sched world db db' tr :
  ntp_monitoring_loop ((e, sched) :: world) db = Some (db', tr) ->
  exists tr', tr = CycleStart (now_start e) :: tr'.
Proof.
  cbn [ntp_monitoring_loop].
  destruct (run e sched (cycle_init db)) as [st|]; [|discriminate].
  destruct (cycle_over st); [|discriminate].
  destruct (cs_raised st).
  - intros H. inversion H. eauto.
  - destruct (ntp_monitoring_loop world (cs_db st)) as [[d t]|];
      [|discriminate].
    intros H. inversion H. eauto.
Qed.

(** C8 (as stated) fails: this cycle took 5.001 s, so the sleep would
    be 294.999 s, but the store rejected a row, the exception left the
    loop, and the thread ended without sleeping and without starting the
    cycle that was to follow. *)
Lemma no_sleep_after_rejected_insert :
  ntp_monitoring_loop
    [ (env_error_row_rejected, sched_error_row_rejected);
      (env_slow, sequential ntp_servers) ] empty_db
  = Some (empty_db,
          [CycleStart (now_start env_error_row_rejected); ThreadDied])
  /\ cycle_over state_error_row_rejected = true
  /\ ~ has_slept
        [CycleStart (now_start env_error_row_rejected); ThreadDied]
  /\ (Qmax 0 (300 - total_seconds (now_end env_error_row_rejected)
                                  (now_start env_error_row_rejected))
      == 294999 # 1000)%Q.
Proof.
  assert (R : run env_error_row_rejected sched_error_row_rejected
                (cycle_init empty_db)
              = Some state_error_row_rejected) by (vm_compute; reflexivity).
  assert (O : cycle_over state_error_row_rejected = true)
    by (vm_compute; reflexivity).
  assert (X : cs_raised state_error_row_rejected = true)
    by (vm_compute; reflexivity).
  assert (D : cs_db state_error_row_rejected = empty_db)
    by (vm_compute; reflexivity).
  split; [|split; [exact O|split]].
  - cbn [ntp_monitoring_loop]. rewrite R, O, X, D. reflexivity.
  - intros (d & [H|[H|[]]]); discriminate.
  - vm_compute. reflexivity.
Qed.

(** C8 (amended). A finished cycle whose writes the store accepts is
    followed by a sleep of [max(0, 300 - elapsed)] seconds, that is
    [max(0, 300000 - elapsed)] in milliseconds, where [elapsed] is the
    time from the start of the cycle to its end; when [elapsed] is 300 s
    or more the sleep is 0; and the next thing the loop does after the
    sleep is to start the next cycle. *)
Theorem residual_sleep (e : env) (sched : list event)
    (world : list (env * list event)) (db : database) (st : cycle_state)
    (db' : database) (tr' : list loop_event) :
  (forall s, In s ntp_servers -> insert_ok e s = true) ->
  run e sched (cycle_init db) = Some st ->
  cycle_over st = true ->
  ntp_monitoring_loop world (cs_db st) = Some (db', tr') ->
  exists r,
    ntp_monitoring_loop ((e, sched) :: world) db
    = Some (db', CycleStart (now_start e) :: Summary r
                 :: Sleep (sleep_time r) :: tr')
    /\ has_slept (CycleStart (now_start e) :: Summary r
                  :: Sleep (sleep_time r) :: tr')
    /\ elapsed r = total_seconds (now_end e) (now_start e)
    /\ sleep_time r = Qmax 0 (300 - elapsed r)
    /\ (sleep_time r * 1000 == Qmax 0 (300000 - elapsed r * 1000))%Q
    /\ ((300 <= elapsed r)%Q -> sleep_time r = 0%Q)
    /\ match world with
       | [] => tr' = []
       | (e', _) :: _ => exists tr'', tr' = CycleStart (now_start e') :: tr''
       end.
Proof.
  intros Hok Hrun Hover L.
  destruct (cycle_invariant _ _ _ _ Hrun) as (new & I).
  exists (summarize e st). split.
  - cbn [ntp_monitoring_loop].
    rewrite Hrun, Hover, (no_raise _ _ _ _ I Hok), L. reflexivity.
  - split; [exists (sleep_time (summarize e st)); simpl; auto|].
    cbn [summarize elapsed sleep_time].
    split; [reflexivity|]. split; [apply max0_Qmax|].
    split; [apply max0_ms|]. split; [apply max0_zero|].
    destruct world as [|[e' s'] world'].
    + simpl in L. inversion L. reflexivity.
    + eapply loop_starts_with_cycle. eassumption.
Qed.

Lemma two_cycles_run :
  ntp_monitoring_loop two_cycles empty_db
  = Some (cs_db state_after_slow,
          [ CycleStart (now_start env_slow);
            Summary (summarize env_slow state_slow);
            Sleep (sleep_time (summarize env_slow state_slow));
            CycleStart (now_start env_two_up);
            Summary (summarize env_two_up state_after_slow);
            Sleep (sleep_time (summarize env_two_up state_after_slow)) ]).
Proof.
  assert (R1 : run env_slow (sequential ntp_servers) (cycle_init empty_db)
               = Some state_slow) by (vm_compute; reflexivity).
  assert (O1 : cycle_over state_slow = true) by (vm_compute; reflexivity).
  assert (X1 : cs_raised state_slow = false) by (vm_compute; reflexivity).
  assert (R2 : run env_two_up (sequential ntp_servers)
                 (cycle_init (cs_db state_slow))
               = Some state_after_slow) by (vm_compute; reflexivity).
  assert (O2 : cycle_over state_after_slow = true)
    by (vm_compute; reflexivity).
  assert (X2 : cs_raised state_after_slow = false)
    by (vm_compute; reflexivity).
  unfold two_cycles. cbn [ntp_monitoring_loop].
  rewrite R1, O1, X1, R2, O2, X2. reflexivity.
Qed.

Lemma second_cycle_run :
  ntp_monitoring_loop [(env_two_up, sequential ntp_servers)]
    (cs_db state_slow)
  = Some (cs_db state_after_slow,
          [ CycleStart (now_start env_two_up);
            Summary (summarize env_two_up state_after_slow);
            Sleep (sleep_time (summarize env_two_up state_after_slow)) ]).
Proof.
  assert (R2 : run env_two_up (sequential ntp_servers)
                 (cycle_init (cs_db state_slow))
               = Some state_after_slow) by (vm_compute; reflexivity).
  assert (O2 : cycle_over state_after_slow = true)
    by (vm_compute; reflexivity).
  assert (X2 : cs_raised state_after_slow = false)
    by (vm_compute; reflexivity).
  cbn [ntp_monitoring_loop]. rewrite R2, O2, X2. reflexivity.
Qed.

Lemma residual_sleep_witness :
  exists r,
    ntp_monitoring_loop
      ((env_slow, sequential ntp_servers)
       :: [(env_two_up, sequential ntp_servers)]) empty_db
    = Some (cs_db state_after_slow,
            CycleStart (now_start env_slow) :: Summary r
            :: Sleep (sleep_time r)
            :: [ CycleStart (now_start env_two_up);
                 Summary (summarize env_two_up state_after_slow);
                 Sleep (sleep_time (summarize env_two_up state_after_slow)) ])
    /\ has_slept
         (CycleStart (now_start env_slow) :: Summary r
          :: Sleep (sleep_time r)
          :: [ CycleStart (now_start env_two_up);
               Summary (summarize env_two_up state_after_slow);
               Sleep (sleep_time (summarize env_two_up state_after_slow)) ])
    /\ elapsed r = total_seconds (now_end env_slow) (now_start env_slow)
    /\ sleep_time r = Qmax 0 (300 - elapsed r)
    /\ (sleep_time r * 1000 == Qmax 0 (300000 - elapsed r * 1000))%Q
    /\ ((300 <= elapsed r)%Q -> sleep_time r = 0%Q)
    /\ exists tr'',
         [ CycleStart (now_start env_two_up);
           Summary (summarize env_two_up state_after_slow);
           Sleep (sleep_time (summarize env_two_up state_after_slow)) ]
         = CycleStart (now_start env_two_up) :: tr''.
Proof.
  refine (residual_sleep env_slow (sequential ntp_servers)
            [(env_two_up, sequential ntp_servers)] empty_db state_slow
            (cs_db state_after_slow)
            [ CycleStart (now_start env_two_up);
              Summary (summarize env_two_up state_after_slow);
              Sleep (sleep_time (summarize env_two_up state_after_slow)) ]
            _ _ _ _).
  - intros s _. reflexivity.
  - vm_compute. reflexivity.
  - vm_compute. reflexivity.
  - exact second_cycle_run.
Defined.

(** The slow cycle took 301 s: the loop sleeps 0 s and goes on. *)
Example slow_cycle_sleeps_zero :
  (elapsed (summarize env_slow state_slow) == 301)%Q
  /\ sleep_time (summarize env_slow state_slow) = 0%Q.
Proof.
  cbn [summarize elapsed sleep_time]. split; vm_compute; reflexivity.
Qed.

(** An ordinary cycle took 5.001 s: the loop sleeps the other 294.999 s. *)
Example quick_cycle_sleeps_rest :
  (sleep_time (summarize env_one_down state_one_down) == 294999 # 1000)%Q.
Proof. cbn [summarize sleep_time]. vm_compute. reflexivity. Qed.

(** ** Sorting *)

Section SortFacts.
Context {A : Type} (le : A -> A -> bool).

Lemma insert_sorted_perm (x : A) (l : list A) :
  Permutation (insert_sorted le x l) (x :: l).
Proof.
  induction l as [|y l IH]; simpl; [reflexivity|].
  destruct (le x y); [reflexivity|].
  rewrite IH. apply perm_swap.
Qed.

Lemma stable_sort_perm (l : list A) : Permutation (stable_sort le l) l.
Proof.
  induction l as [|x l IH]; simpl; [reflexivity|].
  rewrite insert_sorted_perm. constructor. assumption.
Qed.

Lemma stable_sort_in (l : list A) (x : A) :
  In x (stable_sort le l) <-> In x l.
Proof.
  split; apply Permutation_in;
    [apply stable_sort_perm | symmetry; apply stable_sort_perm].
Qed.
End SortFacts.

Section SortByKey.
Context {A : Type} (key : A -> Z).

Lemma insert_sorted_ordered (x : A) (l : list A) :
  StronglySorted (fun a b => key a <= key b) l ->
  StronglySorted (fun a b => key a <= key b)
                 (insert_sorted (fun a b => key a <=? key b) x l).
Proof.
  induction 1 as [|y l Hs IH Hy]; simpl.
  - constructor; constructor.
  - destruct (Z.leb_spec (key x) (key y)) as [Hle|Hgt].
    + constructor; [constructor; assumption|].
      constructor; [assumption|].
      eapply Forall_impl; [|exact Hy]. cbv beta. intros; lia.
    + constructor; [assumption|].
      rewrite Forall_forall in *. intros z Hz.
      apply (Permutation_in _ (insert_sorted_perm _ x l)) in Hz.
      destruct Hz as [<-|Hz]; [lia|auto].
Qed.

Lemma stable_sort_ordered (l : list A) :
  StronglySorted (fun a b => key a <= key b)
                 (stable_sort (fun a b => key a <=? key b) l).
Proof.
  induction l as [|x l IH]; simpl; [constructor|].
  apply insert_sorted_ordered. assumption.
Qed.
End SortByKey.

Lemma insert_sorted_map {A B : Type} (f : A -> B) (le : A -> A -> bool)
    (le' : B -> B -> bool) (x : A) (l : list A) :
  (forall a b, le' (f a) (f b) = le a b) ->
  insert_sorted le' (f x) (map f l) = map f (insert_sorted le x l).
Proof.
  intros H. induction l as [|y l IH]; simpl; [reflexivity|].
  rewrite H. destruct (le x y); simpl; [reflexivity|].
  rewrite IH. reflexivity.
Qed.

Lemma stable_sort_map {A B : Type} (f : A -> B) (le : A -> A -> bool)
    (le' : B -> B -> bool) (l : list A) :
  (forall a b, le' (f a) (f b) = le a b) ->
  stable_sort le' (map f l) = map f (stable_sort le l).
Proof.
  intros H. induction l as [|x l IH]; simpl; [reflexivity|].
  rewrite IH. apply insert_sorted_map. assumption.
Qed.

(** ** The realtime query *)

Lemma max_id_some (srv : string) (rows : list row) (m : Z) :
  max_id srv rows = Some m ->
  (exists r, In r rows /\ server r = srv /\ id r = m)
  /\ (forall r, In r rows -> server r = srv -> id r <= m).
Proof.
  revert m. induction rows as [|r rows IH]; simpl; intros m H;
    [discriminate|].
  destruct (String.eqb_spec (server r) srv) as [E|E].
  - destruct (max_id srv rows) as [m'|] eqn:M.
    + inversion H; subst m. destruct (IH _ eq_refl) as ((r0 & Hin & Hs & Hi) & Hmax).
      split.
      * destruct (Z.max_spec (id r) m') as [[_ ->]|[_ ->]];
          [exists r0; auto | exists r; auto].
      * intros r' [<-|Hin'] Hs'; [lia|]. specialize (Hmax _ Hin' Hs'). lia.
    + inversion H; subst m. split; [exists r; auto|].
      intros r' [<-|Hin'] Hs'; [lia|].
      exfalso. clear IH H. induction rows as [|q rows IH']; [contradiction|].
      simpl in M. destruct (String.eqb_spec (server q) srv) as [Eq|Eq].
      * destruct (max_id srv rows); discriminate.
      * destruct Hin' as [<-|Hin']; [contradiction|auto].
  - destruct (IH _ H) as ((r0 & Hin & Hs & Hi) & Hmax).
    split; [exists r0; auto|].
    intros r' [<-|Hin'] Hs'; [contradiction|auto].
Qed.

Lemma max_id_none (srv : string) (rows : list row) :
  max_id srv rows = None -> forall r, In r rows -> server r <> srv.
Proof.
  induction rows as [|q rows IH]; simpl; intros M r Hin; [contradiction|].
  destruct (String.eqb_spec (server q) srv) as [Eq|Eq].
  - destruct (max_id srv rows); discriminate.
  - destruct Hin as [<-|Hin]; [assumption|auto].
Qed.

Lemma max_id_in (srv : string) (rows : list row) :
  In srv (map server rows) -> exists m, max_id srv rows = Some m.
Proof.
  intros Hin. apply in_map_iff in Hin. destruct Hin as (r & Hs & Hin).
  destruct (max_id srv rows) as [m|] eqn:M; [eauto|].
  exfalso. apply (max_id_none _ _ M _ Hin). assumption.
Qed.

Lemma select_latest_spec (db : database) (r : row) :
  In r (select_latest db)
  <-> In r (table db)
      /\ forall r', In r' (table db) -> server r' = server r -> id r' <= id r.
Proof.
  unfold select_latest. rewrite filter_In. split.
  - intros [Hin H]. split; [assumption|].
    destruct (max_id (server r) (table db)) as [m|] eqn:M; [|discriminate].
    apply Z.eqb_eq in H. rewrite H.
    apply (max_id_some _ _ _ M).
  - intros [Hin Hmax]. split; [assumption|].
    destruct (max_id (server r) (table db)) as [m|] eqn:M.
    + destruct (max_id_some _ _ _ M) as ((r0 & Hin0 & Hs0 & Hi0) & Hle).
      apply Z.eqb_eq. specialize (Hmax _ Hin0 Hs0).
      specialize (Hle _ Hin eq_refl). lia.
    + exfalso. apply (max_id_none _ _ M _ Hin). reflexivity.
Qed.

Lemma same_id_same_row (rows : list row) (a b : row) :
  NoDup (map id rows) -> In a rows -> In b rows -> id a = id b -> a = b.
Proof.
  induction rows as [|r rows IH]; simpl; intros Hnd Ha Hb E; [contradiction|].
  inversion Hnd as [|? ? Hnotin Hnd']; subst.
  destruct Ha as [<-|Ha], Hb as [<-|Hb]; auto.
  - exfalso. apply Hnotin. rewrite E. apply in_map. assumption.
  - exfalso. apply Hnotin. rewrite <- E. apply in_map. assumption.
Qed.

Lemma select_latest_distinct (db : database) :
  NoDup (map id (table db)) -> NoDup (map server (select_latest db)).
Proof.
  intros Hnd. apply NoDup_map_NoDup_ForallPairs.
  - intros a b Ha Hb E.
    apply select_latest_spec in Ha. apply select_latest_spec in Hb.
    destruct Ha as [Ha Hamax], Hb as [Hb Hbmax].
    apply (same_id_same_row _ _ _ Hnd Ha Hb).
    specialize (Hamax _ Hb (eq_sym E)). specialize (Hbmax _ Ha E). lia.
  - apply NoDup_filter. eapply NoDup_map_inv. eassumption.
Qed.

Lemma select_latest_covers (db : database) (s : string) :
  In s (map server (table db)) <-> In s (map server (select_latest db)).
Proof.
  split.
  - intros Hin. destruct (max_id_in _ _ Hin) as (m & M).
    destruct (max_id_some _ _ _ M) as ((r & Hr & Hs & Hi) & Hle).
    apply in_map_iff. exists r. split; [assumption|].
    apply select_latest_spec. split; [assumption|].
    intros r' Hr' Hs'. rewrite Hi. apply Hle; congruence.
  - intros Hin. apply in_map_iff in Hin. destruct Hin as (r & Hs & Hr).
    apply select_latest_spec in Hr. apply in_map_iff. exists r. tauto.
Qed.

Lemma index_none (x : string) (l : list string) :
  index x l = None <-> ~ In x l.
Proof.
  induction l as [|y l IH]; simpl; [tauto|].
  destruct (String.eqb_spec y x) as [E|E].
  - split; [discriminate|]. intros H. exfalso. apply H. auto.
  - destruct (index x l) as [i|].
    + split; [discriminate|]. intros H. exfalso.
      assert (N : ~ In x l) by tauto. apply IH in N. discriminate.
    + split; [|reflexivity]. intros _ [?|?]; [contradiction|].
      apply (proj1 IH eq_refl). assumption.
Qed.

Lemma index_bound (x : string) (l : list string) (i : Z) :
  index x l = Some i -> 0 <= i < Z.of_nat (List.length l).
Proof.
  revert i. induction l as [|y l IH]; simpl; intros i H; [discriminate|].
  destruct (String.eqb y x).
  - inversion H. lia.
  - destruct (index x l) as [j|]; [|discriminate].
    inversion H. specialize (IH _ eq_refl). lia.
Qed.

Lemma index_nth (l : list string) : forall (n : nat) (x : string),
  NoDup l -> nth_error l n = Some x -> index x l = Some (Z.of_nat n).
Proof.
  induction l as [|y l IH]; intros n x Hnd Hn.
  - destruct n; discriminate.
  - inversion Hnd as [|? ? Hnotin Hnd']; subst. destruct n as [|n]; simpl in *.
    + inversion Hn; subst. rewrite String.eqb_refl. reflexivity.
    + destruct (String.eqb_spec y x) as [E|E].
      * exfalso. apply Hnotin. subst y. eapply nth_error_In. eassumption.
      * rewrite (IH _ _ Hnd' Hn). f_equal. lia.
Qed.

Lemma NoDup_preferred_order : NoDup preferred_order.
Proof.
  apply (NoDup_count_occ' string_dec). intros x Hx. simpl in Hx.
  repeat (destruct Hx as [<-|Hx]; [vm_compute; reflexivity|]).
  contradiction.
Qed.

Lemma rank_known (s : string) : In s preferred_order -> 0 <= rank s < 15.
Proof.
  intros H. unfold rank.
  destruct (index s preferred_order) as [i|] eqn:E.
  - apply index_bound in E. simpl in E. lia.
  - apply index_none in E. contradiction.
Qed.

Lemma rank_unknown (s : string) : ~ In s preferred_order -> rank s = 999.
Proof.
  intros H. unfold rank. apply index_none in H. rewrite H. reflexivity.
Qed.

Lemma rank_position (s : string) (n : nat) :
  nth_error preferred_order n = Some s -> rank s = Z.of_nat n.
Proof.
  intros H. unfold rank.
  rewrite (index_nth _ _ _ NoDup_preferred_order H). reflexivity.
Qed.

Lemma sort_key_to_dict (r : row) : sort_key (to_dict r) = rank (server r).
Proof. reflexivity. Qed.

Lemma get_realtime_data_rows (db : database) :
  get_realtime_data db
  = map to_dict
      (stable_sort (fun a b => rank (server a) <=? rank (server b))
         (select_latest db)).
Proof.
  unfold get_realtime_data. apply stable_sort_map.
  intros a b. rewrite !sort_key_to_dict. reflexivity.
Qed.

(** C9. On a table with distinct ids, [/api/realtime] returns the
    serialisation of a list of rows with: one row per server present in
    the table, namely the one with the largest id among that server's
    rows; rows in the order of [preferred_order], a server's place being
    its position in that list; servers outside the list (place 999)
    after all the listed ones. *)
Theorem realtime_latest_per_server (db : database) :
  NoDup (map id (table db)) ->
  exists l,
    get_realtime_data db = map to_dict l
    /\ (forall r,
          In r l
          <-> In r (table db)
              /\ forall r', In r' (table db) -> server r' = server r ->
                            id r' <= id r)
    /\ NoDup (map server l)
    /\ (forall s, In s (map server (table db)) <-> In s (map server l))
    /\ StronglySorted (fun a b => rank (server a) <= rank (server b)) l
    /\ (forall s n, nth_error preferred_order n = Some s ->
                    rank s = Z.of_nat n)
    /\ (forall l1 a l2,
          l = l1 ++ a :: l2 -> ~ In (server a) preferred_order ->
          forall b, In b l2 -> ~ In (server b) preferred_order).
Proof.
  intros Hnd.
  set (l := stable_sort (fun a b => rank (server a) <=? rank (server b))
              (select_latest db)).
  assert (P : Permutation l (select_latest db)) by apply stable_sort_perm.
  assert (S : StronglySorted (fun a b => rank (server a) <= rank (server b)) l)
    by apply (stable_sort_ordered (fun r => rank (server r))).
  exists l. split; [apply get_realtime_data_rows|].
  split; [|split; [|split; [|split; [|split]]]].
  - intros r. rewrite <- select_latest_spec.
    split; apply Permutation_in; [assumption|symmetry; assumption].
  - apply (Permutation_NoDup (l := map server (select_latest db))).
    + apply Permutation_map. symmetry. assumption.
    + apply select_latest_distinct. assumption.
  - intros s. rewrite select_latest_covers.
    split; apply Permutation_in; apply Permutation_map;
      [symmetry; assumption|assumption].
  - exact S.
  - intros s n. apply rank_position.
  - intros l1 a l2 E Ha b Hb Hin.
    rewrite E in S. clear E P.
    induction l1 as [|c l1 IH]; simpl in S;
      apply StronglySorted_inv in S; destruct S as [S F].
    + rewrite Forall_forall in F. specialize (F _ Hb). cbv beta in F.
      rewrite (rank_unknown _ Ha) in F.
      pose proof (rank_known _ Hin). lia.
    + auto.
Qed.

Lemma realtime_latest_per_server_witness :
  exists l,
    get_realtime_data db_sample = map to_dict l
    /\ (forall r,
          In r l
          <-> In r (table db_sample)
              /\ forall r', In r' (table db_sample) -> server r' = server r ->
                            id r' <= id r)
    /\ NoDup (map server l)
    /\ (forall s, In s (map server (table db_sample)) <-> In s (map server l))
    /\ StronglySorted (fun a b => rank (server a) <= rank (server b)) l
    /\ (forall s n, nth_error preferred_order n = Some s ->
                    rank s = Z.of_nat n)
    /\ (forall l1 a l2,
          l = l1 ++ a :: l2 -> ~ In (server a) preferred_order ->
          forall b, In b l2 -> ~ In (server b) preferred_order).
Proof.
  apply (realtime_latest_per_server db_sample).
  simpl. repeat constructor; simpl; intuition discriminate.
Defined.

(** The sample dataset, worked out: the older row of [time.google.com]
    is dropped, [157.20.66.8] comes last but one, the unlisted
    [example.org] last. *)
Example realtime_on_sample :
  map (fun d => dict_get d "server") (get_realtime_data db_sample)
  = [ Some "14.139.60.103"; Some "time.google.com"; Some "157.20.66.8";
      Some "example.org" ]
  /\ map (fun d => dict_get d "timestamp") (get_realtime_data db_sample)
     = [ Some "2024-01-01T10:00:02"; Some "2024-01-01T10:05:00";
         Some "2024-01-01T10:05:01"; Some "2024-01-01T10:00:01" ]
  /\ map (fun d => dict_get d "offset_ms") (get_realtime_data db_sample)
     = [ Some "0.000"; Some "-1.500"; Some "4.000"; Some "2.000" ].
Proof. repeat split; vm_compute; reflexivity. Qed.

(** ** What the handlers serialise *)

Lemma to_dict_keys (r : row) :
  map fst (to_dict r) = api_keys /\ dict_get (to_dict r) "stratum" = None.
Proof. split; reflexivity. Qed.

Lemma max_id_set_stratum (f : row -> Z) (srv : string) (rows : list row) :
  max_id srv
    (map (fun r => mkRow (id r) (timestamp r) (server r) (offset_ms r)
                         (delay_ms r) (root_delay_ms r) (root_dispersion_ms r)
                         (f r) (response_time_ms r) (precision_ms r)
                         (status r)) rows)
  = max_id srv rows.
Proof.
  induction rows as [|r rows IH]; simpl; [reflexivity|].
  rewrite IH. reflexivity.
Qed.

Lemma select_latest_set_stratum (f : row -> Z) (db : database) :
  map to_dict (select_latest (set_stratum f db))
  = map to_dict (select_latest db).
Proof.
  unfold select_latest, set_stratum. cbn [table].
  rewrite filter_map_swap, map_map. cbn [id server].
  rewrite (filter_ext _
             (fun t1 => match max_id (server t1) (table db) with
                        | Some m => id t1 =? m
                        | None => false
                        end)).
  - reflexivity.
  - intros r. rewrite max_id_set_stratum. reflexivity.
Qed.

Lemma select_history_set_stratum (f : row -> Z) (srv : option string)
    (db : database) :
  map to_dict (select_history srv (set_stratum f db))
  = map to_dict (select_history srv db).
Proof.
  destruct srv as [s|]; [|reflexivity].
  unfold select_history, set_stratum. cbn [table].
  rewrite filter_map_swap. cbn [server].
  rewrite (stable_sort_map _
             (fun a b => String.leb (timestamp b) (timestamp a))
             (fun a b => String.leb (timestamp b) (timestamp a)))
    by reflexivity.
  rewrite firstn_map, map_map. reflexivity.
Qed.

(** C10. Every object returned by [/api/realtime] and by [/api/history]
    has exactly the nine keys of [api_keys], none of which is
    ["stratum"]; and the responses do not depend on the [stratum] column
    at all: replacing its content in every row changes neither. *)
Theorem api_omits_stratum (db : database) (srv : option string) :
  (forall d, In d (get_realtime_data db) \/ In d (get_history srv db) ->
             map fst d = api_keys
             /\ ~ In "stratum" (map fst d)
             /\ dict_get d "stratum" = None)
  /\ (forall f : row -> Z,
        get_realtime_data (set_stratum f db) = get_realtime_data db
        /\ get_history srv (set_stratum f db) = get_history srv db).
Proof.
  split.
  - assert (K : forall r, map fst (to_dict r) = api_keys
                          /\ ~ In "stratum" (map fst (to_dict r))
                          /\ dict_get (to_dict r) "stratum" = None).
    { intros r. split; [reflexivity|]. split; [|reflexivity].
      simpl. intuition discriminate. }
    intros d [H|H].
    + unfold get_realtime_data in H. apply stable_sort_in in H.
      apply in_map_iff in H. destruct H as (r & <- & _). apply K.
    + unfold get_history in H.
      apply in_map_iff in H. destruct H as (r & <- & _). apply K.
  - intros f. split.
    + unfold get_realtime_data. rewrite select_latest_set_stratum.
      reflexivity.
    + unfold get_history. apply select_history_set_stratum.
Qed.

(** The stored strata of the sample dataset are 2, 3, 0, 2 and 1; the
    newest row of [time.google.com] comes back without any of it. *)
Example history_on_sample :
  get_history (Some "time.google.com") db_sample
  = [ [ ("timestamp", "2024-01-01T10:05:00"); ("server", "time.google.com");
        ("offset_ms", "-1.500"); ("delay_ms", "11.000");
        ("root_delay_ms", "5.000"); ("root_dispersion_ms", "12.000");
        ("response_time_ms", "1.000"); ("precision_ms", "0.001");
        ("status", "Online") ];
      [ ("timestamp", "2024-01-01T10:00:00"); ("server", "time.google.com");
        ("offset_ms", "1.000"); ("delay_ms", "10.000");
        ("root_delay_ms", "5.000"); ("root_dispersion_ms", "12.000");
        ("response_time_ms", "1.000"); ("precision_ms", "0.001");
        ("status", "Online") ] ]
  /\ get_history None db_sample = []
  /\ get_history (Some "unknown.example") db_sample = [].
Proof. repeat split; vm_compute; reflexivity. Qed.

(** ** A rejected INSERT *)

(** C5 (as stated) fails: the store rejects one row, every other server
    has answered and its row would be accepted, yet the exception leaves
    the loop, none of the fourteen other samples is appended, and the
    monitoring thread ends instead of starting the next cycle. *)
Lemma sink_failure_aborts_cycle :
  run env_sink_down sched_sink_down (cycle_init empty_db)
  = Some state_sink_down
  /\ cycle_over state_sink_down = true
  /\ ~ sink_failure_tolerated env_sink_down empty_db state_sink_down
  /\ cs_raised state_sink_down = true
  /\ (forall s, In s ntp_servers -> s <> "157.20.66.8" ->
                request env_sink_down s <> None
                /\ insert_ok env_sink_down s = true
                /\ ~ In s (map server (appended empty_db state_sink_down)))
  /\ ntp_monitoring_loop
       [ (env_sink_down, sched_sink_down);
         (env_two_up, sequential ntp_servers) ] empty_db
     = Some (empty_db, [CycleStart (now_start env_sink_down); ThreadDied]).
Proof.
  assert (R : run env_sink_down sched_sink_down (cycle_init empty_db)
              = Some state_sink_down) by (vm_compute; reflexivity).
  assert (O : cycle_over state_sink_down = true) by (vm_compute; reflexivity).
  assert (X : cs_raised state_sink_down = true) by (vm_compute; reflexivity).
  assert (D : cs_db state_sink_down = empty_db) by (vm_compute; reflexivity).
  split; [exact R|]. split; [exact O|]. split; [|split; [exact X|split]].
  - intros [H _]. rewrite X in H. discriminate.
  - intros s Hin Hne. split; [discriminate|]. split.
    + cbn. apply String.eqb_neq in Hne. rewrite Hne. reflexivity.
    + unfold appended. rewrite D. simpl. tauto.
  - cbn [ntp_monitoring_loop]. rewrite R, O, X, D. reflexivity.
Qed.

Lemma has_row_in e db st new s :
  cycle_inv e db st new -> has_row e st s = true -> In s (map server new).
Proof.
  intros I H. apply (count_occ_In string_dec).
  rewrite (inv_count _ _ _ _ I), H. lia.
Qed.

Lemma in_has_row e db st new s :
  cycle_inv e db st new -> In s (map server new) -> has_row e st s = true.
Proof.
  intros I H. apply (count_occ_In string_dec) in H.
  rewrite (inv_count _ _ _ _ I) in H.
  destruct (has_row e st s); [reflexivity|lia].
Qed.

(** C5 (amended). A cycle in which the store rejects the row of some
    server always ends with the exception raised: the loop body is
    left, no summary is produced and the monitoring thread ends without
    starting another cycle.  What was in the table stays; the rows added
    are rows the store accepted; the Error rows of servers whose request
    raised are still written by their workers; a server that answered
    but whose future the loop had not received gets no row. *)
Theorem sink_failure_is_fatal (e : env) (sched : list event)
    (world : list (env * list event)) (db : database) (st : cycle_state) :
  run e sched (cycle_init db) = Some st ->
  cycle_over st = true ->
  (exists s, In s ntp_servers /\ insert_ok e s = false) ->
  cs_raised st = true
  /\ ntp_monitoring_loop ((e, sched) :: world) db
     = Some (cs_db st, [CycleStart (now_start e); ThreadDied])
  /\ exists new,
       table (cs_db st) = table db ++ new
       /\ (forall s', In s' (map server new) -> insert_ok e s' = true)
       /\ (forall s', In s' ntp_servers -> request e s' = None ->
                      insert_ok e s' = true -> In s' (map server new))
       /\ (forall s', request e s' <> None ->
                      mem s' (cs_yielded st) = false ->
                      ~ In s' (map server new)).
Proof.
  intros Hrun Hover (s & Hin & Hbad).
  destruct (cycle_invariant _ _ _ _ Hrun) as (new & I).
  assert (R : cs_raised st = true).
  { destruct (cs_raised st) eqn:R; [reflexivity|]. exfalso.
    assert (Hm : mem s (cs_yielded st) = true).
    { unfold cycle_over in Hover. rewrite R in Hover.
      apply andb_true_iff in Hover. destruct Hover as [_ Hy]. simpl in Hy.
      apply (all_yielded _ _ Hy). rewrite (inv_keys _ _ _ _ I). assumption. }
    pose proof (inv_failed _ _ _ _ I s Hm Hbad). congruence. }
  split; [exact R|]. split.
  - cbn [ntp_monitoring_loop]. rewrite Hrun, Hover, R. reflexivity.
  - exists new. split; [apply (inv_table _ _ _ _ I)|]. split; [|split].
    + intros s' H'. apply (in_has_row _ _ _ _ _ I) in H'.
      unfold has_row in H'.
      destruct (request e s'); apply andb_true_iff in H'; tauto.
    + intros s' Hin' Rq Hok. apply (has_row_in _ _ _ _ _ I).
      unfold has_row. rewrite Rq, Hok.
      unfold cycle_over in Hover.
      apply andb_true_iff in Hover. destruct Hover as [Hd _].
      rewrite (all_done_at _ Hd); [reflexivity|].
      rewrite (inv_keys _ _ _ _ I). assumption.
    + intros s' Rq Hm H'. apply (in_has_row _ _ _ _ _ I) in H'.
      unfold has_row in H'. destruct (request e s'); [|congruence].
      rewrite Hm in H'. discriminate.
Qed.

Lemma sink_failure_is_fatal_witness :
  cs_raised state_sink_down = true
  /\ ntp_monitoring_loop
       ((env_sink_down, sched_sink_down)
        :: [(env_two_up, sequential ntp_servers)]) empty_db
     = Some (cs_db state_sink_down,
             [CycleStart (now_start env_sink_down); ThreadDied])
  /\ exists new,
       table (cs_db state_sink_down) = table empty_db ++ new
       /\ (forall s', In s' (map server new) ->
                      insert_ok env_sink_down s' = true)
       /\ (forall s', In s' ntp_servers -> request env_sink_down s' = None ->
                      insert_ok env_sink_down s' = true ->
                      In s' (map server new))
       /\ (forall s', request env_sink_down s' <> None ->
                      mem s' (cs_yielded state_sink_down) = false ->
                      ~ In s' (map server new)).
Proof.
  apply (sink_failure_is_fatal env_sink_down sched_sink_down
           [(env_two_up, sequential ntp_servers)] empty_db state_sink_down).
  - vm_compute. reflexivity.
  - vm_compute. reflexivity.
  - exists "157.20.66.8". split; [simpl; tauto|reflexivity].
Defined.

(** ** The ids the monitoring loop hands out *)

Lemma sorted_app (l1 l2 : list Z) :
  StronglySorted Z.lt l1 -> StronglySorted Z.lt l2 ->
  (forall a b, In a l1 -> In b l2 -> a < b) ->
  StronglySorted Z.lt (l1 ++ l2).
Proof.
  induction 1 as [|x l1 Hs IH Hx]; intros H2 Hlt; simpl; [assumption|].
  constructor.
  - apply IH; [assumption|]. intros a b Ha Hb. apply Hlt; simpl; auto.
  - apply Forall_app. split; [assumption|].
    apply Forall_forall. intros b Hb. apply Hlt; simpl; auto.
Qed.

Lemma sorted_fresh_ids (base : Z) (n : nat) : forall a : nat,
  StronglySorted Z.lt (map (fun k => base + Z.of_nat k) (List.seq a n)).
Proof.
  induction n as [|n IH]; intros a; simpl; constructor.
  - apply IH.
  - apply Forall_forall. intros x Hx. apply in_map_iff in Hx.
    destruct Hx as (k & <- & Hk). apply in_seq in Hk. lia.
Qed.

(** A cycle keeps the ids of the table distinct and increasing. *)
Lemma cycle_keeps_db_wf (e : env) (sched : list event) (db : database)
    (st : cycle_state) :
  db_wf db -> run e sched (cycle_init db) = Some st -> db_wf (cs_db st).
Proof.
  intros [Hs Hb] Hrun.
  destruct (cycle_invariant _ _ _ _ Hrun) as (new & I).
  assert (Hnew : forall x, In x (map id new) ->
                           seq db < x <= seq (cs_db st)).
  { intros x Hx. rewrite (inv_ids _ _ _ _ I) in Hx.
    apply in_map_iff in Hx. destruct Hx as (k & <- & Hk).
    apply in_seq in Hk. rewrite (inv_seq _ _ _ _ I). lia. }
  rewrite Forall_forall in Hb. split.
  - rewrite (inv_table _ _ _ _ I), map_app. apply sorted_app.
    + assumption.
    + rewrite (inv_ids _ _ _ _ I). apply sorted_fresh_ids.
    + intros a b Ha Hb'. apply in_map_iff in Ha.
      destruct Ha as (r & <- & Hr). specialize (Hb _ Hr).
      specialize (Hnew _ Hb'). lia.
  - apply Forall_forall. intros r Hr.
    rewrite (inv_table _ _ _ _ I) in Hr. apply in_app_or in Hr.
    destruct Hr as [Hr|Hr].
    + specialize (Hb _ Hr). rewrite (inv_seq _ _ _ _ I). lia.
    + apply Hnew. apply in_map. assumption.
Qed.

Lemma db_wf_distinct_ids (db : database) :
  db_wf db -> NoDup (map id (table db)).
Proof.
  intros [Hs _]. induction Hs as [|x l Hs IH Hx]; constructor.
  - intros Hin. rewrite Forall_forall in Hx. specialize (Hx _ Hin). lia.
  - assumption.
Qed.

Lemma db_wf_empty : db_wf empty_db.
Proof. split; constructor. Qed.

(** Whatever number of cycles the loop has run from an empty table, the
    table it leaves has distinct ids. *)
Lemma loop_keeps_db_wf (world : list (env * list event)) :
  forall db db' tr,
    db_wf db -> ntp_monitoring_loop world db = Some (db', tr) -> db_wf db'.
Proof.
  induction world as [|[e sched] world IH]; intros db db' tr Hwf H;
    cbn [ntp_monitoring_loop] in H.
  - inversion H; subst. assumption.
  - destruct (run e sched (cycle_init db)) as [st|] eqn:R; [|discriminate].
    pose proof (cycle_keeps_db_wf _ _ _ _ Hwf R) as Hwf'.
    destruct (cycle_over st); [|discriminate].
    destruct (cs_raised st).
    + inversion H; subst. assumption.
    + destruct (ntp_monitoring_loop world (cs_db st)) as [[d t]|] eqn:L;
        [|discriminate].
      inversion H; subst. eapply IH; eassumption.
Qed.

(** ** Every cycle can run to its end *)

Lemma run_app e s1 : forall s2 st,
  run e (s1 ++ s2) st
  = match run e s1 st with
    | Some st' => run e s2 st'
    | None => None
    end.
Proof.
  induction s1 as [|ev s1 IH]; intros s2 st; simpl; [reflexivity|].
  destruct (step e ev st); [apply IH|reflexivity].
Qed.

Lemma future_of_app_skip (l1 l2 : list (string * future)) (s : string) :
  ~ In s (map fst l1) -> future_of (l1 ++ l2) s = future_of l2 s.
Proof.
  induction l1 as [|[k f] l1 IH]; simpl; intros H; [reflexivity|].
  destruct (String.eqb_spec k s) as [E|E]; [exfalso; auto|].
  apply IH. intros ?; apply H; auto.
Qed.

Lemma set_future_app_skip (l1 l2 : list (string * future)) (s : string)
    (f : future) :
  ~ In s (map fst l1) -> set_future (l1 ++ l2) s f = l1 ++ set_future l2 s f.
Proof.
  induction l1 as [|[k g] l1 IH]; simpl; intros H; [reflexivity|].
  destruct (String.eqb_spec k s) as [E|E]; [exfalso; auto|].
  rewrite IH; [reflexivity|]. intros ?; apply H; auto.
Qed.

Lemma step_worker_result e st s :
  future_of (future_to_server st) s = Some Pending ->
  exists st',
    step e (Worker s) st = Some st'
    /\ future_to_server st'
       = set_future (future_to_server st) s (Done (outcome e s))
    /\ cs_yielded st' = cs_yielded st
    /\ cs_raised st' = cs_raised st.
Proof.
  intros F. cbn [step]. rewrite F.
  unfold query_ntp_server, execute_insert, outcome.
  destruct (request e s); [|destruct (insert_ok e s)];
    eexists; repeat split.
Qed.

Lemma step_yield_result e st s :
  cs_raised st = false ->
  mem s (cs_yielded st) = false ->
  future_of (future_to_server st) s = Some (Done (outcome e s)) ->
  exists st',
    step e (Yield s) st = Some st'
    /\ future_to_server st' = future_to_server st
    /\ cs_yielded st' = s :: cs_yielded st
    /\ cs_raised st' = negb (insert_ok e s).
Proof.
  intros R M F. cbn [step]. rewrite R, M, F.
  unfold outcome, process_response, execute_insert.
  destruct (request e s); cbn [pd_server]; destruct (insert_ok e s);
    eexists; repeat split.
Qed.

Lemma workers_run e : forall suf pre st,
  NoDup (pre ++ suf) ->
  future_to_server st
  = map (fun s => (s, Done (outcome e s))) pre
    ++ map (fun s => (s, Pending)) suf ->
  exists st',
    run e (map Worker suf) st = Some st'
    /\ future_to_server st'
       = map (fun s => (s, Done (outcome e s))) (pre ++ suf)
    /\ cs_yielded st' = cs_yielded st
    /\ cs_raised st' = cs_raised st.
Proof.
  induction suf as [|s suf IH]; intros pre st Hnd Hfs.
  - exists st. rewrite app_nil_r. simpl in Hfs. rewrite app_nil_r in Hfs. auto.
  - assert (Hnotin : ~ In s (map fst (map (fun s => (s, Done (outcome e s))) pre))).
    { rewrite map_map. simpl. rewrite map_id.
      apply NoDup_remove_2 in Hnd. intros H. apply Hnd.
      apply in_or_app. auto. }
    assert (F : future_of (future_to_server st) s = Some Pending).
    { rewrite Hfs, future_of_app_skip by assumption.
      simpl. rewrite String.eqb_refl. reflexivity. }
    destruct (step_worker_result e st s F) as (st1 & S1 & F1 & Y1 & R1).
    destruct (IH (pre ++ [s]) st1) as (st' & Hrun & F' & Y' & R').
    + rewrite <- app_assoc. assumption.
    + rewrite F1, Hfs, set_future_app_skip by assumption.
      simpl. rewrite String.eqb_refl, map_app, <- app_assoc. reflexivity.
    + exists st'. cbn [map run]. rewrite S1, Hrun.
      rewrite <- app_assoc in F'. simpl in F'.
      repeat split; congruence.
Qed.

Lemma future_of_done e (l : list string) (s : string) :
  In s l ->
  future_of (map (fun s => (s, Done (outcome e s))) l) s
  = Some (Done (outcome e s)).
Proof.
  induction l as [|k l IH]; simpl; intros H; [contradiction|].
  destruct (String.eqb_spec k s) as [->|E]; [reflexivity|].
  destruct H; [contradiction|auto].
Qed.

Lemma all_done e (l : list string) :
  forallb (fun p => is_done (snd p))
          (map (fun s => (s, Done (outcome e s))) l) = true.
Proof. induction l; simpl; auto. Qed.

Lemma yields_run e : forall todo st,
  future_to_server st = map (fun s => (s, Done (outcome e s))) ntp_servers ->
  cs_raised st = false ->
  NoDup todo ->
  (forall s, In s todo -> In s ntp_servers /\ mem s (cs_yielded st) = false) ->
  (forall s, In s ntp_servers -> mem s (cs_yielded st) = true \/ In s todo) ->
  exists st',
    run e (yields_until_raise e todo) st = Some st' /\ cycle_over st' = true.
Proof.
  induction todo as [|s todo IH]; intros st Hfs R Hnd Htodo Hall.
  - exists st. split; [reflexivity|]. unfold cycle_over.
    rewrite Hfs, all_done, R. cbn [andb orb].
    apply forallb_forall. intros [k f] Hk. cbn [fst].
    apply in_map_iff in Hk. destruct Hk as (k' & E & Hin). inversion E; subst.
    destruct (Hall _ Hin) as [?|[]]. assumption.
  - destruct (Htodo s (or_introl eq_refl)) as [Hin M].
    assert (F : future_of (future_to_server st) s = Some (Done (outcome e s)))
      by (rewrite Hfs; apply future_of_done; assumption).
    destruct (step_yield_result e st s R M F) as (st1 & S1 & F1 & Y1 & R1).
    cbn [yields_until_raise run]. rewrite S1.
    destruct (insert_ok e s) eqn:Hok.
    + inversion Hnd as [|? ? Hnotin Hnd']; subst.
      apply IH; try assumption; try congruence.
      * intros s' Hs'. split; [apply Htodo; simpl; auto|].
        rewrite Y1, mem_cons_other.
        -- apply Htodo. simpl. auto.
        -- intros ->. contradiction.
      * intros s' Hs'. rewrite Y1.
        destruct (string_dec s s') as [<-|Hne];
          [left; apply mem_cons_same|].
        rewrite mem_cons_other by assumption.
        destruct (Hall _ Hs') as [?|[?|?]]; auto; contradiction.
    + exists st1. split; [reflexivity|]. unfold cycle_over.
      rewrite F1, Hfs, all_done, R1. reflexivity.
Qed.

(** For every environment and every table, the cycle has an execution
    that reaches the end of the [with] block. *)
Lemma cycle_can_complete (e : env) (db : database) :
  exists st,
    run e (workers_first e) (cycle_init db) = Some st
    /\ cycle_over st = true.
Proof.
  destruct (workers_run e ntp_servers [] (cycle_init db))
    as (st1 & Hrun & F & Y & R).
  - apply NoDup_ntp_servers.
  - reflexivity.
  - destruct (yields_run e ntp_servers st1) as (st' & Hrun' & Hover).
    + exact F.
    + rewrite R. reflexivity.
    + apply NoDup_ntp_servers.
    + intros s Hs. split; [assumption|]. rewrite Y. reflexivity.
    + auto.
    + exists st'. unfold workers_first. rewrite run_app, Hrun. auto.
Qed.

(** * Further properties of the monitoring path *)

(** ** What the formulas measure *)

(** X1. Moving the server's clock ahead by [theta] seconds moves the
    computed offset by exactly [1000 * theta] ms and leaves the delay
    untouched: the offset tracks the clock difference, the delay does
    not depend on it. *)
Theorem server_clock_shift (e : env) (srv ts : string)
    (resp : ntplib.NTPStats) (theta : Q) (db : database) :
  insert_ok e srv = true ->
  exists db1 m1 db2 m2,
    process_response e (Some (mkProbe srv resp ts)) db = Ok (db1, Some m1)
    /\ process_response e
         (Some (mkProbe srv (shift_server_clock theta resp) ts)) db
       = Ok (db2, Some m2)
    /\ (m_offset m2 == m_offset m1 + theta * 1000)%Q
    /\ (m_delay m2 == m_delay m1)%Q.
Proof.
  intros Hok. unfold process_response, execute_insert.
  cbn [pd_server pd_response pd_timestamp]. rewrite Hok.
  do 4 eexists. split; [reflexivity|]. split; [reflexivity|].
  cbn [m_offset m_delay shift_server_clock ntplib.orig_time ntplib.recv_time
       ntplib.tx_time ntplib.dest_time].
  unfold offset_of, delay_of. split; field.
Qed.

Lemma server_clock_shift_witness :
  exists db1 m1 db2 m2,
    process_response env_one_down
      (Some (mkProbe "time.google.com" exchange_plain "2024-01-01T10:00:00"))
      empty_db = Ok (db1, Some m1)
    /\ process_response env_one_down
         (Some (mkProbe "time.google.com"
                  (shift_server_clock (3 # 10) exchange_plain)
                  "2024-01-01T10:00:00")) empty_db
       = Ok (db2, Some m2)
    /\ (m_offset m2 == m_offset m1 + (3 # 10) * 1000)%Q
    /\ (m_delay m2 == m_delay m1)%Q.
Proof.
  apply (server_clock_shift env_one_down "time.google.com"
           "2024-01-01T10:00:00" exchange_plain (3 # 10) empty_db).
  reflexivity.
Defined.

Lemma appended_new e db st new :
  cycle_inv e db st new -> appended db st = new.
Proof.
  intros I. unfold appended. rewrite (inv_table _ _ _ _ I).
  rewrite skipn_app, skipn_all, Nat.sub_diag. reflexivity.
Qed.

Lemma appended_rows e sched db st :
  run e sched (cycle_init db) = Some st ->
  Forall (fun r => r = sample_of e (id r) (server r)) (appended db st).
Proof.
  intros Hrun. destruct (cycle_invariant _ _ _ _ Hrun) as (new & I).
  rewrite (appended_new _ _ _ _ I). apply (inv_rows _ _ _ _ I).
Qed.

(** X2. For every Online row a cycle stores, delay plus server
    response time is the round trip the client observed,
    [(T4 - T1) * 1000]; so the stored delay is negative exactly when the
    server claims more processing time than the whole round trip took. *)
Theorem delay_plus_response_time (e : env) (sched : list event)
    (db : database) (st : cycle_state) :
  run e sched (cycle_init db) = Some st ->
  forall r, In r (appended db st) -> status r = "Online" ->
  exists resp,
    request e (server r) = Some resp
    /\ (delay_ms r + response_time_ms r
        == (ntplib.dest_time resp - ntplib.orig_time resp) * 1000)%Q
    /\ ((delay_ms r < 0)%Q
        <-> (ntplib.dest_time resp - ntplib.orig_time resp
             < ntplib.tx_time resp - ntplib.recv_time resp)%Q).
Proof.
  intros Hrun r Hin Hst.
  pose proof (appended_rows _ _ _ _ Hrun) as F.
  rewrite Forall_forall in F. specialize (F _ Hin).
  unfold sample_of in F.
  destruct (request e (server r)) as [resp|] eqn:Rq.
  - exists resp. split; [reflexivity|]. rewrite F.
    cbn [online_row delay_ms response_time_ms].
    unfold delay_of, response_time_of. split; [field|].
    split; intros H; Lqa.lra.
  - rewrite F in Hst. discriminate.
Qed.

Lemma delay_plus_response_time_witness :
  In (sample_of env_one_down 1 "157.20.66.8")
     (appended empty_db state_one_down)
  /\ status (sample_of env_one_down 1 "157.20.66.8") = "Online"
  /\ exists resp,
       request env_one_down (server (sample_of env_one_down 1 "157.20.66.8"))
       = Some resp
       /\ (delay_ms (sample_of env_one_down 1 "157.20.66.8")
           + response_time_ms (sample_of env_one_down 1 "157.20.66.8")
           == (ntplib.dest_time resp - ntplib.orig_time resp) * 1000)%Q
       /\ ((delay_ms (sample_of env_one_down 1 "157.20.66.8") < 0)%Q
           <-> (ntplib.dest_time resp - ntplib.orig_time resp
                < ntplib.tx_time resp - ntplib.recv_time resp)%Q).
Proof.
  assert (Hin : In (sample_of env_one_down 1 "157.20.66.8")
                   (appended empty_db state_one_down))
    by (vm_compute; tauto).
  split; [exact Hin|]. split; [reflexivity|].
  apply (delay_plus_response_time env_one_down (sequential ntp_servers)
           empty_db state_one_down).
  - vm_compute. reflexivity.
  - exact Hin.
  - reflexivity.
Defined.

(** X3. In every row a cycle stores, the precision column tells the two
    kinds of row apart: an Online row has [2^precision * 1000], which is
    positive whatever exponent the server reported, an Error row has 0. *)
Theorem precision_marks_status (e : env) (sched : list event)
    (db : database) (st : cycle_state) :
  run e sched (cycle_init db) = Some st ->
  forall r, In r (appended db st) ->
  (status r = "Online" /\ (0 < precision_ms r)%Q
   /\ exists resp, request e (server r) = Some resp
                   /\ precision_ms r = (2 ^ ntplib.precision resp * 1000)%Q
                   /\ stratum r = ntplib.stratum resp)
  \/ (status r = "Error" /\ precision_ms r = 0%Q /\ stratum r = 0
      /\ request e (server r) = None).
Proof.
  intros Hrun r Hin.
  pose proof (appended_rows _ _ _ _ Hrun) as F.
  rewrite Forall_forall in F. specialize (F _ Hin).
  unfold sample_of in F.
  destruct (request e (server r)) as [resp|] eqn:Rq; rewrite F.
  - left. split; [reflexivity|]. split.
    + cbn [online_row precision_ms]. unfold precision_of.
      assert (0 < 2 ^ ntplib.precision resp)%Q
        by (apply Qpower_0_lt; reflexivity).
      Lqa.nra.
    + exists resp. repeat split.
  - right. repeat split.
Qed.

Lemma precision_marks_status_witness :
  In (sample_of env_one_down 1 "157.20.66.8")
     (appended empty_db state_one_down)
  /\ ((status (sample_of env_one_down 1 "157.20.66.8") = "Online"
       /\ (0 < precision_ms (sample_of env_one_down 1 "157.20.66.8"))%Q
       /\ exists resp,
            request env_one_down
              (server (sample_of env_one_down 1 "157.20.66.8")) = Some resp
            /\ precision_ms (sample_of env_one_down 1 "157.20.66.8")
               = (2 ^ ntplib.precision resp * 1000)%Q
            /\ stratum (sample_of env_one_down 1 "157.20.66.8")
               = ntplib.stratum resp)
      \/ (status (sample_of env_one_down 1 "157.20.66.8") = "Error"
          /\ precision_ms (sample_of env_one_down 1 "157.20.66.8") = 0%Q
          /\ stratum (sample_of env_one_down 1 "157.20.66.8") = 0
          /\ request env_one_down
               (server (sample_of env_one_down 1 "157.20.66.8")) = None)).
Proof.
  assert (Hin : In (sample_of env_one_down 1 "157.20.66.8")
                   (appended empty_db state_one_down))
    by (vm_compute; tauto).
  split; [exact Hin|].
  apply (precision_marks_status env_one_down (sequential ntp_servers)
           empty_db state_one_down).
  - vm_compute. reflexivity.
  - exact Hin.
Defined.

(** ** The store during a cycle *)

(** X4. At every point of a cycle, under any interleaving and whether or
    not an INSERT was rejected, the table is the table the cycle started
    from followed by the rows it added: nothing is rewritten or removed,
    the new ids continue the counter without gaps, no server of the list
    has two new rows and no other server has any. *)
Theorem cycle_appends_only (e : env) (sched : list event) (db : database)
    (st : cycle_state) :
  run e sched (cycle_init db) = Some st ->
  table (cs_db st) = table db ++ appended db st
  /\ seq (cs_db st) = seq db + Z.of_nat (List.length (appended db st))
  /\ map id (appended db st)
     = map (fun k => seq db + Z.of_nat k)
           (List.seq 1 (List.length (appended db st)))
  /\ NoDup (map server (appended db st))
  /\ (forall r, In r (appended db st) -> In (server r) ntp_servers).
Proof.
  intros Hrun. destruct (cycle_invariant _ _ _ _ Hrun) as (new & I).
  rewrite (appended_new _ _ _ _ I).
  split; [apply (inv_table _ _ _ _ I)|].
  split; [apply (inv_seq _ _ _ _ I)|].
  split; [apply (inv_ids _ _ _ _ I)|]. split.
  - apply (NoDup_count_occ string_dec). intros s.
    rewrite (inv_count _ _ _ _ I). destruct (has_row e st s); lia.
  - intros r Hr.
    destruct (in_dec string_dec (server r) ntp_servers) as [?|Hout];
      [assumption|exfalso].
    pose proof (has_row_outside _ _ _ _ _ I Hout) as H.
    rewrite (in_has_row _ _ _ _ _ I) in H; [discriminate|].
    apply in_map. assumption.
Qed.

Lemma cycle_appends_only_witness :
  table (cs_db state_sink_down) = table empty_db ++ appended empty_db state_sink_down
  /\ seq (cs_db state_sink_down)
     = seq empty_db + Z.of_nat (List.length (appended empty_db state_sink_down))
  /\ map id (appended empty_db state_sink_down)
     = map (fun k => seq empty_db + Z.of_nat k)
           (List.seq 1 (List.length (appended empty_db state_sink_down)))
  /\ NoDup (map server (appended empty_db state_sink_down))
  /\ (forall r, In r (appended empty_db state_sink_down) ->
                In (server r) ntp_servers).
Proof.
  apply (cycle_appends_only env_sink_down sched_sink_down empty_db
           state_sink_down).
  vm_compute. reflexivity.
Defined.

Lemma combine_maps {A B C : Type} (f : A -> B) (g : A -> C) (l : list A) :
  combine (map f l) (map g l) = map (fun x => (f x, g x)) l.
Proof. induction l as [|x l IH]; simpl; congruence. Qed.

(** X5. The two lists the loop body fills stay aligned with the store:
    at every point of a cycle, the i-th delay and the i-th offset are
    those of the i-th Online row the cycle has stored, in table order,
    and the lists have as many entries as there are such rows. *)
Theorem lists_follow_online_rows (e : env) (sched : list event)
    (db : database) (st : cycle_state) :
  run e sched (cycle_init db) = Some st ->
  combine (delays st) (offsets st)
  = map (fun r => (delay_ms r, offset_ms r))
        (filter is_online (appended db st))
  /\ List.length (delays st) = List.length (filter is_online (appended db st))
  /\ List.length (offsets st) = List.length (delays st).
Proof.
  intros Hrun. destruct (cycle_invariant _ _ _ _ Hrun) as (new & I).
  rewrite (appended_new _ _ _ _ I).
  rewrite (inv_delays _ _ _ _ I), (inv_offsets _ _ _ _ I).
  rewrite combine_maps, !length_map. auto.
Qed.

Lemma lists_follow_online_rows_witness :
  combine (delays state_one_down) (offsets state_one_down)
  = map (fun r => (delay_ms r, offset_ms r))
        (filter is_online (appended empty_db state_one_down))
  /\ List.length (delays state_one_down)
     = List.length (filter is_online (appended empty_db state_one_down))
  /\ List.length (offsets state_one_down) = List.length (delays state_one_down).
Proof.
  apply (lists_follow_online_rows env_one_down (sequential ntp_servers)
           empty_db state_one_down).
  vm_compute. reflexivity.
Defined.

(** ** Whole cycles *)

(** A finished cycle whose writes the store accepted has one new row per
    server of the list. *)
Lemma cycle_rows_complete e sched db st :
  (forall s, In s ntp_servers -> insert_ok e s = true) ->
  run e sched (cycle_init db) = Some st ->
  cycle_over st = true ->
  exists new,
    cycle_inv e db st new /\ Permutation (map server new) ntp_servers.
Proof.
  intros Hok Hrun Hover.
  destruct (cycle_invariant _ _ _ _ Hrun) as (new & I).
  pose proof (no_raise _ _ _ _ I Hok) as R.
  exists new. split; [exact I|].
  apply (Permutation_count_occ string_dec). intros s.
  rewrite (inv_count _ _ _ _ I).
  destruct (in_dec string_dec s ntp_servers) as [Hin|Hout].
  - rewrite (has_row_at_end _ _ _ _ _ I Hover R Hin), (Hok _ Hin).
    symmetry. apply count_in_roster. assumption.
  - rewrite (has_row_outside _ _ _ _ _ I Hout).
    symmetry. apply count_occ_not_In. assumption.
Qed.

(** X6. When no server answers and the store accepts the writes, the
    finished cycle has stored fifteen rows, all of them Error rows, and
    its summary is jitter 0 and mean offset 0. *)
Theorem all_probes_fail (e : env) (sched : list event) (db : database)
    (st : cycle_state) :
  (forall s, In s ntp_servers -> request e s = None) ->
  (forall s, In s ntp_servers -> insert_ok e s = true) ->
  run e sched (cycle_init db) = Some st ->
  cycle_over st = true ->
  List.length (appended db st) = 15%nat
  /\ Forall (fun r => status r = "Error") (appended db st)
  /\ jitter (summarize e st) = 0%R
  /\ offset_mean (summarize e st) = 0%Q.
Proof.
  intros Hdown Hok Hrun Hover.
  destruct (cycle_rows_complete _ _ _ _ Hok Hrun Hover) as (new & I & P).
  rewrite (appended_new _ _ _ _ I).
  assert (E : Forall (fun r => status r = "Error") new).
  { pose proof (inv_rows _ _ _ _ I) as F. rewrite Forall_forall in *.
    intros r Hr. rewrite (F _ Hr).
    rewrite sample_of_error; [reflexivity|].
    apply Hdown. apply (Permutation_in _ P). apply in_map. assumption. }
  assert (N : filter is_online new = []).
  { clear -E. induction E as [|r l Hr _ IH]; simpl; [reflexivity|].
    unfold is_online. rewrite Hr. simpl. assumption. }
  split; [|split; [exact E|]].
  - rewrite <- (length_map server), (Permutation_length P). reflexivity.
  - cbn [summarize jitter offset_mean]. unfold jitter_of, offset_mean_of.
    rewrite (inv_delays _ _ _ _ I), (inv_offsets _ _ _ _ I), N.
    split; reflexivity.
Qed.

Lemma all_probes_fail_witness :
  List.length (appended empty_db state_all_down) = 15%nat
  /\ Forall (fun r => status r = "Error") (appended empty_db state_all_down)
  /\ jitter (summarize env_all_down state_all_down) = 0%R
  /\ offset_mean (summarize env_all_down state_all_down) = 0%Q.
Proof.
  apply (all_probes_fail env_all_down (sequential ntp_servers) empty_db
           state_all_down).
  - intros s _. reflexivity.
  - intros s _. reflexivity.
  - vm_compute. reflexivity.
  - vm_compute. reflexivity.
Defined.

(** ** The summary does not depend on the interleaving *)

Lemma filter_perm {A : Type} (f : A -> bool) (l l' : list A) :
  Permutation l l' -> Permutation (filter f l) (filter f l').
Proof.
  induction 1 as [|x l l' _ IH|x y l|l l' l'' _ IH1 _ IH2]; simpl.
  - constructor.
  - destruct (f x); [constructor|]; assumption.
  - destruct (f x), (f y); try reflexivity. apply perm_swap.
  - etransitivity; eassumption.
Qed.

Lemma sum_perm xs ys : Permutation xs ys -> (sum xs == sum ys)%Q.
Proof.
  induction 1 as [|x l l' _ IH|x y l|l l' l'' _ IH1 _ IH2]; simpl.
  - reflexivity.
  - rewrite IH. reflexivity.
  - ring.
  - rewrite IH1. assumption.
Qed.

Lemma same_list_Qeq xs : Forall2 Qeq xs xs.
Proof. induction xs; constructor; [reflexivity|assumption]. Qed.

Lemma mean_perm xs ys : Permutation xs ys -> (mean xs == mean ys)%Q.
Proof.
  intros P. unfold mean.
  rewrite (sum_perm _ _ P), (Permutation_length P). reflexivity.
Qed.

Lemma variance_perm xs ys :
  Permutation xs ys -> (variance xs == variance ys)%Q.
Proof.
  intros P. unfold variance.
  rewrite (sum_Qeq _ _ (squares_Qeq _ _ _ _ (mean_perm _ _ P)
                          (same_list_Qeq xs))).
  rewrite (sum_perm _ _ (Permutation_map _ P)), (Permutation_length P).
  reflexivity.
Qed.

Lemma jitter_of_perm xs ys :
  Permutation xs ys -> jitter_of xs = jitter_of ys.
Proof.
  intros P. unfold jitter_of, stdev.
  rewrite (Permutation_length P), (Qeq_eqR _ _ (variance_perm _ _ P)).
  reflexivity.
Qed.

Lemma online_projection (e : env) (f : row -> Q) (new : list row) :
  (forall i s, f (sample_of e i s) = f (sample_of e 0 s)) ->
  Forall (fun r => r = sample_of e (id r) (server r)) new ->
  map f (filter is_online new)
  = map (fun s => f (sample_of e 0 s)) (filter (responds e) (map server new)).
Proof.
  intros Hf. induction 1 as [|r l Hr _ IH]; simpl; [reflexivity|].
  assert (O : is_online r = responds e (server r)).
  { rewrite Hr at 1. rewrite sample_of_online. reflexivity. }
  rewrite O. destruct (responds e (server r)); simpl; [|assumption].
  rewrite IH. f_equal. rewrite Hr at 1. apply Hf.
Qed.

Lemma delay_of_sample e i s :
  delay_ms (sample_of e i s) = delay_ms (sample_of e 0 s).
Proof. unfold sample_of. destruct (request e s); reflexivity. Qed.

Lemma offset_of_sample e i s :
  offset_ms (sample_of e i s) = offset_ms (sample_of e 0 s).
Proof. unfold sample_of. destruct (request e s); reflexivity. Qed.

(** In a finished cycle whose writes were accepted, the delays and the
    offsets are those of the answering servers, in some order. *)
Lemma lists_of_finished_cycle e sched db st :
  (forall s, In s ntp_servers -> insert_ok e s = true) ->
  run e sched (cycle_init db) = Some st ->
  cycle_over st = true ->
  Permutation (delays st)
    (map (fun s => delay_ms (sample_of e 0 s))
         (filter (responds e) ntp_servers))
  /\ Permutation (offsets st)
       (map (fun s => offset_ms (sample_of e 0 s))
            (filter (responds e) ntp_servers))
  /\ List.length (offsets st) = List.length (delays st).
Proof.
  intros Hok Hrun Hover.
  destruct (cycle_rows_complete _ _ _ _ Hok Hrun Hover) as (new & I & P).
  rewrite (inv_delays _ _ _ _ I), (inv_offsets _ _ _ _ I).
  rewrite (online_projection e delay_ms new (delay_of_sample e)
             (inv_rows _ _ _ _ I)).
  rewrite (online_projection e offset_ms new (offset_of_sample e)
             (inv_rows _ _ _ _ I)).
  split; [|split].
  - apply Permutation_map, filter_perm. assumption.
  - apply Permutation_map, filter_perm. assumption.
  - rewrite !length_map. reflexivity.
Qed.

Lemma offset_mean_of_perm ds ds' os os' :
  Permutation ds ds' -> Permutation os os' ->
  List.length os = List.length ds ->
  (offset_mean_of ds os == offset_mean_of ds' os')%Q.
Proof.
  intros Pd Po L. unfold offset_mean_of.
  rewrite <- (Permutation_length Pd), <- L.
  destruct os as [|a [|b os]].
  - apply Permutation_nil in Po. subst os'. reflexivity.
  - apply Permutation_length_1_inv in Po. subst os'. reflexivity.
  - cbn [List.length Nat.ltb Nat.leb]. apply mean_perm. assumption.
Qed.

(** X7. The summary of a finished cycle does not depend on how the pool
    threads and the loop body interleaved: two executions in the same
    environment (store accepting the writes) collect the same delays and
    offsets up to order, and report the same jitter, mean offset and
    sleep. *)
Theorem summary_schedule_independent (e : env) (sched1 sched2 : list event)
    (db1 db2 : database) (st1 st2 : cycle_state) :
  (forall s, In s ntp_servers -> insert_ok e s = true) ->
  run e sched1 (cycle_init db1) = Some st1 -> cycle_over st1 = true ->
  run e sched2 (cycle_init db2) = Some st2 -> cycle_over st2 = true ->
  Permutation (delays st1) (delays st2)
  /\ Permutation (offsets st1) (offsets st2)
  /\ jitter (summarize e st1) = jitter (summarize e st2)
  /\ (offset_mean (summarize e st1) == offset_mean (summarize e st2))%Q
  /\ sleep_time (summarize e st1) = sleep_time (summarize e st2).
Proof.
  intros Hok R1 O1 R2 O2.
  destruct (lists_of_finished_cycle _ _ _ _ Hok R1 O1) as (D1 & F1 & L1).
  destruct (lists_of_finished_cycle _ _ _ _ Hok R2 O2) as (D2 & F2 & L2).
  assert (Pd : Permutation (delays st1) (delays st2))
    by (rewrite D1, D2; reflexivity).
  assert (Po : Permutation (offsets st1) (offsets st2))
    by (rewrite F1, F2; reflexivity).
  split; [exact Pd|]. split; [exact Po|].
  cbn [summarize jitter offset_mean sleep_time].
  split; [apply jitter_of_perm; assumption|].
  split; [apply offset_mean_of_perm; assumption|reflexivity].
Qed.

Lemma summary_schedule_independent_witness :
  Permutation (delays state_two_up) (delays state_two_up_workers_first)
  /\ Permutation (offsets state_two_up) (offsets state_two_up_workers_first)
  /\ jitter (summarize env_two_up state_two_up)
     = jitter (summarize env_two_up state_two_up_workers_first)
  /\ (offset_mean (summarize env_two_up state_two_up)
      == offset_mean (summarize env_two_up state_two_up_workers_first))%Q
  /\ sleep_time (summarize env_two_up state_two_up)
     = sleep_time (summarize env_two_up state_two_up_workers_first).
Proof.
  apply (summary_schedule_independent env_two_up (sequential ntp_servers)
           (workers_first env_two_up) empty_db empty_db).
  - intros s _. reflexivity.
  - vm_compute. reflexivity.
  - vm_compute. reflexivity.
  - vm_compute. reflexivity.
  - vm_compute. reflexivity.
Defined.

(** The two schedules leave the rows in different table order: the
    sequential one interleaves Error and Online rows in list order, the
    other writes the thirteen Error rows first. *)
Example schedules_differ_in_table_order :
  map server (table (cs_db state_two_up))
  <> map server (table (cs_db state_two_up_workers_first)).
Proof. vm_compute. discriminate. Qed.

(** ** Pacing *)

(** X8. The argument of [time.sleep] is never negative; the elapsed
    time of a cycle and the sleep computed for it add up to
    [max(300, elapsed)] seconds; and when the clock reading at the end
    of the cycle is not before the one at its start the sleep is at most
    300 s. *)
Theorem cycle_period (e : env) (st : cycle_state) :
  (0 <= sleep_time (summarize e st))%Q
  /\ (elapsed (summarize e st) + sleep_time (summarize e st)
      == Qmax 300 (elapsed (summarize e st)))%Q
  /\ (micros (now_start e) <= micros (now_end e) ->
      (sleep_time (summarize e st) <= 300)%Q).
Proof.
  cbn [summarize elapsed sleep_time].
  set (el := total_seconds (now_end e) (now_start e)).
  unfold max0. destruct (Qlt_le_dec 0 (300 - el)) as [H|H].
  - split; [Lqa.lra|]. split.
    + rewrite Q.max_l by Lqa.lra. Lqa.lra.
    + intros Hclock.
      assert (0 <= el)%Q.
      { unfold el, total_seconds. apply Qle_shift_div_l; [reflexivity|].
        rewrite Qmult_0_l. change 0%Q with (inject_Z 0).
        rewrite <- Zle_Qle. lia. }
      Lqa.lra.
  - split; [Lqa.lra|]. split.
    + rewrite Q.max_r by Lqa.lra. Lqa.lra.
    + intros _. Lqa.lra.
Qed.

(** ** Many cycles *)

Lemma loop_extends_table (world : list (env * list event)) :
  forall db db' tr,
    ntp_monitoring_loop world db = Some (db', tr) ->
    exists added, table db' = table db ++ added.
Proof.
  induction world as [|[e sched] world IH]; intros db db' tr H;
    cbn [ntp_monitoring_loop] in H.
  - inversion H; subst. exists []. rewrite app_nil_r. reflexivity.
  - destruct (run e sched (cycle_init db)) as [st|] eqn:R; [|discriminate].
    destruct (cycle_invariant _ _ _ _ R) as (new & I).
    destruct (cycle_over st); [|discriminate].
    destruct (cs_raised st).
    + inversion H; subst. exists new. apply (inv_table _ _ _ _ I).
    + destruct (ntp_monitoring_loop world (cs_db st)) as [[d t]|] eqn:L;
        [|discriminate].
      inversion H; subst. destruct (IH _ _ _ L) as (added & E).
      exists (new ++ added).
      rewrite E, (inv_table _ _ _ _ I), app_assoc. reflexivity.
Qed.

(** X9. However many cycles the loop runs and however each one ends,
    the rows that were in the table stay where they were, and if the ids
    were distinct, increasing and below the AUTOINCREMENT counter, they
    still are: the loop never reuses an id. *)
Theorem loop_keeps_ids_distinct (world : list (env * list event))
    (db db' : database) (tr : list loop_event) :
  db_wf db ->
  ntp_monitoring_loop world db = Some (db', tr) ->
  (exists added, table db' = table db ++ added)
  /\ db_wf db'
  /\ NoDup (map id (table db')).
Proof.
  intros Hwf H. split; [eapply loop_extends_table; eassumption|].
  pose proof (loop_keeps_db_wf _ _ _ _ Hwf H) as Hwf'.
  split; [assumption|]. apply db_wf_distinct_ids. assumption.
Qed.

Lemma loop_keeps_ids_distinct_witness :
  (exists added,
      table (fst (loop_or_nothing two_cycles empty_db))
      = table empty_db ++ added)
  /\ db_wf (fst (loop_or_nothing two_cycles empty_db))
  /\ NoDup (map id (table (fst (loop_or_nothing two_cycles empty_db)))).
Proof.
  refine (loop_keeps_ids_distinct two_cycles empty_db
            (fst (loop_or_nothing two_cycles empty_db))
            (snd (loop_or_nothing two_cycles empty_db)) db_wf_empty _).
  unfold loop_or_nothing. rewrite two_cycles_run. cbn [fst snd].
  reflexivity.
Defined.

Lemma finished_cycle_adds_fifteen e sched db st :
  (forall s, In s ntp_servers -> insert_ok e s = true) ->
  run e sched (cycle_init db) = Some st ->
  cycle_over st = true ->
  List.length (table (cs_db st)) = (List.length (table db) + 15)%nat
  /\ seq (cs_db st) = seq db + 15
  /\ cs_raised st = false.
Proof.
  intros Hok Hrun Hover.
  destruct (cycle_rows_complete _ _ _ _ Hok Hrun Hover) as (new & I & P).
  assert (L : List.length new = 15%nat)
    by (rewrite <- (length_map server), (Permutation_length P); reflexivity).
  rewrite (inv_table _ _ _ _ I), (inv_seq _ _ _ _ I), length_app, L.
  repeat split. apply (no_raise _ _ _ _ I Hok).
Qed.

(** X10. As long as the store accepts the writes the thread never dies:
    after [n] cycles the table has grown by exactly [15 * n] rows, the
    counter by as much, and the loop has gone [n] times through start,
    summary and sleep. *)
Theorem loop_row_count (world : list (env * list event))
    (db db' : database) (tr : list loop_event) :
  Forall (fun c => forall s, In s ntp_servers -> insert_ok (fst c) s = true)
         world ->
  ntp_monitoring_loop world db = Some (db', tr) ->
  List.length (table db')
  = (List.length (table db) + 15 * List.length world)%nat
  /\ seq db' = seq db + 15 * Z.of_nat (List.length world)
  /\ ~ In ThreadDied tr
  /\ List.length tr = (3 * List.length world)%nat.
Proof.
  intros Hok. revert db db' tr.
  induction Hok as [|[e sched] world He _ IH]; intros db db' tr H;
    cbn [ntp_monitoring_loop] in H.
  - inversion H; subst. simpl.
    split; [lia|]. split; [lia|]. split; [tauto|reflexivity].
  - cbn [fst] in He.
    destruct (run e sched (cycle_init db)) as [st|] eqn:R; [|discriminate].
    destruct (cycle_over st) eqn:O; [|discriminate].
    destruct (finished_cycle_adds_fifteen _ _ _ _ He R O) as (L & S & X).
    rewrite X in H.
    destruct (ntp_monitoring_loop world (cs_db st)) as [[d t]|] eqn:Lp;
      [|discriminate].
    inversion H; subst.
    destruct (IH _ _ _ Lp) as (L' & S' & N' & T').
    cbn [List.length]. split; [lia|]. split; [lia|]. split; [|lia].
    intros [?|[?|[?|?]]]; try discriminate. contradiction.
Qed.

Lemma loop_row_count_witness :
  List.length (table (fst (loop_or_nothing two_cycles empty_db)))
  = (List.length (table empty_db) + 15 * List.length two_cycles)%nat
  /\ seq (fst (loop_or_nothing two_cycles empty_db))
     = seq empty_db + 15 * Z.of_nat (List.length two_cycles)
  /\ ~ In ThreadDied (snd (loop_or_nothing two_cycles empty_db))
  /\ List.length (snd (loop_or_nothing two_cycles empty_db))
     = (3 * List.length two_cycles)%nat.
Proof.
  refine (loop_row_count two_cycles empty_db
            (fst (loop_or_nothing two_cycles empty_db))
            (snd (loop_or_nothing two_cycles empty_db)) _ _).
  - unfold two_cycles.
    constructor; [intros s _; reflexivity|].
    constructor; [intros s _; reflexivity|]. constructor.
  - unfold loop_or_nothing. rewrite two_cycles_run. cbn [fst snd].
    reflexivity.
Defined.

(** ** The history query *)

Lemma string_compare_trans (a : string) : forall b c,
  String.compare a b <> Gt -> String.compare b c <> Gt ->
  String.compare a c <> Gt.
Proof.
  induction a as [|x a IH]; intros [|y b] [|z c]; simpl;
    try congruence.
  unfold Ascii.compare.
  destruct (N.compare_spec (N_of_ascii x) (N_of_ascii y)) as [E1|L1|G1];
    destruct (N.compare_spec (N_of_ascii y) (N_of_ascii z)) as [E2|L2|G2];
    destruct (N.compare_spec (N_of_ascii x) (N_of_ascii z)) as [E3|L3|G3];
    intros H1 H2; try congruence; try lia.
  apply IH with b; assumption.
Qed.

Lemma string_leb_trans (a b c : string) :
  String.leb a b = true -> String.leb b c = true -> String.leb a c = true.
Proof.
  unfold String.leb. intros H1 H2.
  pose proof (string_compare_trans a b c) as T.
  destruct (String.compare a b); destruct (String.compare b c);
    destruct (String.compare a c); try reflexivity; try discriminate;
    exfalso; apply T; congruence.
Qed.

Section SortTotal.
Context {A : Type} (le : A -> A -> bool).
Hypothesis le_total : forall a b, le a b = true \/ le b a = true.
Hypothesis le_trans : forall a b c,
  le a b = true -> le b c = true -> le a c = true.

Lemma insert_sorted_sorted (x : A) (l : list A) :
  StronglySorted (fun a b => le a b = true) l ->
  StronglySorted (fun a b => le a b = true) (insert_sorted le x l).
Proof.
  induction 1 as [|y l Hs IH Hy]; simpl.
  - constructor; constructor.
  - destruct (le x y) eqn:E.
    + constructor; [constructor; assumption|].
      constructor; [assumption|].
      eapply Forall_impl; [|exact Hy]. cbv beta. intros z Hz.
      eapply le_trans; eassumption.
    + constructor; [assumption|].
      rewrite Forall_forall in *. intros z Hz.
      apply (Permutation_in _ (insert_sorted_perm le x l)) in Hz.
      destruct Hz as [<-|Hz]; [|auto].
      destruct (le_total x y) as [H|H]; [congruence|assumption].
Qed.

Lemma stable_sort_sorted (l : list A) :
  StronglySorted (fun a b => le a b = true) (stable_sort le l).
Proof.
  induction l as [|x l IH]; simpl; [constructor|].
  apply insert_sorted_sorted. assumption.
Qed.
End SortTotal.

Lemma sorted_split {A : Type} (R : A -> A -> Prop) (l1 l2 : list A) :
  StronglySorted R (l1 ++ l2) ->
  StronglySorted R l1
  /\ forall a b, In a l1 -> In b l2 -> R a b.
Proof.
  induction l1 as [|x l1 IH]; simpl; intros H.
  - split; [constructor|]. intros a b [].
  - apply StronglySorted_inv in H. destruct H as [Hs Hx].
    destruct (IH Hs) as [Hs1 Hcross]. rewrite Forall_forall in Hx.
    split.
    + constructor; [assumption|]. apply Forall_forall. intros y Hy.
      apply Hx. apply in_or_app. auto.
    + intros a b [<-|Ha] Hb; [|auto]. apply Hx. apply in_or_app. auto.
Qed.

Lemma in_firstn {A : Type} (n : nat) (l : list A) (x : A) :
  In x (firstn n l) -> In x l.
Proof.
  intros H. rewrite <- (firstn_skipn n l). apply in_or_app. auto.
Qed.

Lemma history_sorted (s : string) (db : database) :
  StronglySorted
    (fun a b => String.leb (timestamp b) (timestamp a) = true)
    (stable_sort (fun a b => String.leb (timestamp b) (timestamp a))
       (filter (fun r => String.eqb (server r) s) (table db))).
Proof.
  apply (stable_sort_sorted
           (fun a b => String.leb (timestamp b) (timestamp a))).
  - intros a b. destruct (String.leb_total (timestamp a) (timestamp b));
      auto.
  - intros a b c H1 H2. eapply string_leb_trans; eassumption.
Qed.

(** X11. [/api/history] answers with at most ten objects, each the
    serialisation of a stored row of the requested server, newest
    timestamp first (timestamps compared as text). *)
Theorem history_shape (srv : option string) (db : database) :
  exists l,
    get_history srv db = map to_dict l
    /\ (List.length l <= 10)%nat
    /\ (forall r, In r l -> In r (table db) /\ srv = Some (server r))
    /\ (forall d, In d (get_history srv db) -> dict_get d "server" = srv)
    /\ StronglySorted
         (fun a b => String.leb (timestamp b) (timestamp a) = true) l.
Proof.
  exists (select_history srv db). split; [reflexivity|].
  destruct srv as [s|]; cbn [select_history].
  - assert (Hin : forall r,
               In r (firstn 10
                       (stable_sort
                          (fun a b => String.leb (timestamp b) (timestamp a))
                          (filter (fun r => String.eqb (server r) s)
                                  (table db)))) ->
               In r (table db) /\ Some s = Some (server r)).
    { intros r Hr. apply in_firstn in Hr. apply stable_sort_in in Hr.
      apply filter_In in Hr. destruct Hr as [Hr E].
      apply String.eqb_eq in E. subst s. auto. }
    split; [apply firstn_le_length|]. split; [exact Hin|]. split.
    + intros d Hd. unfold get_history in Hd. cbn [select_history] in Hd.
      apply in_map_iff in Hd. destruct Hd as (r & <- & Hr).
      destruct (Hin _ Hr) as [_ E]. inversion E. reflexivity.
    + pose proof (history_sorted s db) as S.
      rewrite <- (firstn_skipn 10) in S.
      apply sorted_split in S. tauto.
  - split; [simpl; lia|]. split; [intros r []|].
    split; [intros d []|constructor].
Qed.

(** X12. The ten objects are the newest ones: the rows of the requested
    server split into the returned ones and the rest, no row of the rest
    has a later timestamp than a returned one, and there is a rest only
    when ten rows were returned; with ten rows or fewer for the server,
    all of them are returned. *)
Theorem history_keeps_newest (s : string) (db : database) :
  exists rest,
    Permutation (filter (fun r => String.eqb (server r) s) (table db))
                (select_history (Some s) db ++ rest)
    /\ get_history (Some s) db = map to_dict (select_history (Some s) db)
    /\ (forall a b, In a (select_history (Some s) db) -> In b rest ->
                    String.leb (timestamp b) (timestamp a) = true)
    /\ (rest <> [] -> List.length (select_history (Some s) db) = 10%nat)
    /\ ((List.length (filter (fun r => String.eqb (server r) s) (table db))
         <= 10)%nat -> rest = []).
Proof.
  set (matching := filter (fun r => String.eqb (server r) s) (table db)).
  set (sorted := stable_sort
                   (fun a b => String.leb (timestamp b) (timestamp a))
                   matching).
  exists (skipn 10 sorted).
  assert (P : Permutation sorted matching) by apply stable_sort_perm.
  change (select_history (Some s) db) with (firstn 10 sorted).
  split; [rewrite firstn_skipn; symmetry; exact P|].
  split; [reflexivity|]. split; [|split].
  - pose proof (history_sorted s db) as S. fold matching in S.
    fold sorted in S. rewrite <- (firstn_skipn 10) in S.
    apply sorted_split in S. destruct S as [_ S]. exact S.
  - intros Hrest. apply firstn_length_le.
    destruct (Nat.le_gt_cases 10 (List.length sorted)) as [?|Hlt];
      [assumption|].
    exfalso. apply Hrest. apply skipn_all2. lia.
  - intros Hlen. apply skipn_all2.
    rewrite (Permutation_length P). assumption.
Qed.

(** X13. [/api/history] answers with the empty list exactly when no
    stored row has the requested server: when the request carries no
    [server] argument, or names a server that was never stored. *)
Theorem history_empty_iff (srv : option string) (db : database) :
  get_history srv db = []
  <-> forall r, In r (table db) -> srv <> Some (server r).
Proof.
  unfold get_history. split.
  - intros H r Hr E. subst srv. apply map_eq_nil in H.
    unfold select_history in H.
    assert (Hin : In r (stable_sort
                          (fun a b => String.leb (timestamp b) (timestamp a))
                          (filter (fun r0 => String.eqb (server r0) (server r))
                                  (table db)))).
    { apply stable_sort_in. apply filter_In. split; [assumption|].
      apply String.eqb_refl. }
    destruct (stable_sort _ _) as [|x l]; [contradiction|]. discriminate.
  - intros H. destruct srv as [s|]; [|reflexivity].
    unfold select_history.
    assert (E : filter (fun r => String.eqb (server r) s) (table db) = []).
    { induction (table db) as [|r l IH]; simpl; [reflexivity|].
      destruct (String.eqb_spec (server r) s) as [E|E].
      - exfalso. apply (H r); [simpl; auto|congruence].
      - apply IH. intros r' Hr'. apply H. simpl. auto. }
    rewrite E. reflexivity.
Qed.

(** ** The realtime query after a cycle *)

(** X14. [/api/realtime] answers with the empty list exactly when the
    table is empty: every stored server shows up. *)
Theorem realtime_empty_iff (db : database) :
  get_realtime_data db = [] <-> table db = [].
Proof.
  rewrite get_realtime_data_rows. split.
  - intros H. apply map_eq_nil in H.
    destruct (table db) as [|r l] eqn:T; [reflexivity|exfalso].
    assert (Hs : In (server r) (map server (table db)))
      by (rewrite T; simpl; auto).
    apply select_latest_covers in Hs. apply in_map_iff in Hs.
    destruct Hs as (r' & _ & Hr').
    apply (stable_sort_in (fun a b => rank (server a) <=? rank (server b)))
      in Hr'.
    rewrite H in Hr'. contradiction.
  - intros T. unfold select_latest. rewrite T. reflexivity.
Qed.

Lemma index_some_nth (x : string) (l : list string) : forall i,
  index x l = Some i -> nth_error l (Z.to_nat i) = Some x.
Proof.
  induction l as [|y l IH]; simpl; intros i H; [discriminate|].
  destruct (String.eqb_spec y x) as [->|E].
  - inversion H. reflexivity.
  - destruct (index x l) as [j|] eqn:J; [|discriminate].
    inversion H. pose proof (index_bound _ _ _ J).
    replace (Z.to_nat (j + 1)) with (S (Z.to_nat j)) by lia.
    simpl. apply IH. reflexivity.
Qed.

Lemma rank_injective (s s' : string) :
  In s preferred_order -> In s' preferred_order ->
  rank s = rank s' -> s = s'.
Proof.
  unfold rank. intros H H' E.
  destruct (index s preferred_order) as [i|] eqn:I;
    [|apply index_none in I; contradiction].
  destruct (index s' preferred_order) as [j|] eqn:J;
    [|apply index_none in J; contradiction].
  subst j. apply index_some_nth in I. apply index_some_nth in J. congruence.
Qed.

Lemma roster_is_preferred (s : string) :
  In s ntp_servers <-> In s preferred_order.
Proof.
  rewrite <- !mem_true. split; intros H; apply mem_true in H; simpl in H;
    repeat (destruct H as [<-|H]; [vm_compute; reflexivity|]);
    contradiction.
Qed.

Lemma preferred_order_ranked :
  StronglySorted (fun s s' => rank s < rank s') preferred_order.
Proof.
  unfold preferred_order.
  repeat (constructor; [|repeat (constructor; [vm_compute; reflexivity|]);
                         constructor]).
  constructor.
Qed.

Lemma sorted_unique (l1 : list string) : forall l2,
  StronglySorted (fun s s' => rank s < rank s') l1 ->
  StronglySorted (fun s s' => rank s < rank s') l2 ->
  (forall x, In x l1 <-> In x l2) ->
  l1 = l2.
Proof.
  induction l1 as [|a t1 IH]; intros [|b t2] S1 S2 Hsame.
  - reflexivity.
  - exfalso. apply (proj2 (Hsame b)). simpl. auto.
  - exfalso. apply (proj1 (Hsame a)). simpl. auto.
  - apply StronglySorted_inv in S1. destruct S1 as [S1 F1].
    apply StronglySorted_inv in S2. destruct S2 as [S2 F2].
    rewrite Forall_forall in F1, F2.
    assert (E : a = b).
    { destruct (proj1 (Hsame a) (or_introl eq_refl)) as [?|Ha]; [auto|].
      destruct (proj2 (Hsame b) (or_introl eq_refl)) as [?|Hb]; [auto|].
      specialize (F1 _ Hb). specialize (F2 _ Ha). lia. }
    subst b. f_equal. apply IH; try assumption.
    intros x. split; intros Hx.
    + destruct (proj1 (Hsame x) (or_intror Hx)) as [<-|?]; [|assumption].
      specialize (F1 _ Hx). lia.
    + destruct (proj2 (Hsame x) (or_intror Hx)) as [<-|?]; [|assumption].
      specialize (F2 _ Hx). lia.
Qed.

Lemma ranked_strictly (l : list row) :
  StronglySorted (fun a b => rank (server a) <= rank (server b)) l ->
  NoDup (map server l) ->
  (forall r, In r l -> In (server r) preferred_order) ->
  StronglySorted (fun s s' => rank s < rank s') (map server l).
Proof.
  induction 1 as [|r l Hs IH Hr]; intros Hnd Hin; simpl; constructor.
  - inversion Hnd; subst. apply IH; [assumption|].
    intros r' Hr'. apply Hin. simpl. auto.
  - inversion Hnd as [|? ? Hnotin _]; subst.
    rewrite Forall_forall in *. intros s Hs'.
    apply in_map_iff in Hs'. destruct Hs' as (r' & <- & Hr').
    specialize (Hr _ Hr').
    assert (rank (server r) <> rank (server r')).
    { intros E. apply Hnotin.
      rewrite (rank_injective _ _ (Hin r (or_introl eq_refl))
                 (Hin r' (or_intror Hr')) E).
      apply in_map. assumption. }
    lia.
Qed.

Lemma to_dict_sample e i s :
  to_dict (sample_of e i s) = to_dict (sample_of e 0 s).
Proof. unfold sample_of. destruct (request e s); reflexivity. Qed.

Lemma new_ids_above e db st new r :
  cycle_inv e db st new -> In r new -> seq db < id r.
Proof.
  intros I Hr. apply (in_map id) in Hr. rewrite (inv_ids _ _ _ _ I) in Hr.
  apply in_map_iff in Hr. destruct Hr as (k & <- & Hk).
  apply in_seq in Hk. lia.
Qed.

(** X15. After a finished cycle whose writes the store accepted, on a
    table that held only servers of the list, [/api/realtime] returns
    exactly the fifteen samples of that cycle, one per server, in the
    order of [preferred_order], whatever the interleaving was and
    whatever older rows the table holds. *)
Theorem realtime_after_cycle (e : env) (sched : list event) (db : database)
    (st : cycle_state) :
  db_wf db ->
  Forall (fun r => In (server r) ntp_servers) (table db) ->
  (forall s, In s ntp_servers -> insert_ok e s = true) ->
  run e sched (cycle_init db) = Some st ->
  cycle_over st = true ->
  get_realtime_data (cs_db st)
  = map (fun s => to_dict (sample_of e 0 s)) preferred_order.
Proof.
  intros Hwf Hold Hok Hrun Hover.
  destruct (cycle_rows_complete _ _ _ _ Hok Hrun Hover) as (new & I & P).
  pose proof (db_wf_distinct_ids _ (cycle_keeps_db_wf _ _ _ _ Hwf Hrun))
    as Hnd.
  rewrite get_realtime_data_rows.
  set (L := stable_sort (fun a b => rank (server a) <=? rank (server b))
              (select_latest (cs_db st))).
  assert (PL : Permutation L (select_latest (cs_db st)))
    by apply stable_sort_perm.
  assert (Hnew : forall r, In r L -> In r new).
  { intros r Hr. apply (Permutation_in _ PL) in Hr.
    apply select_latest_spec in Hr. destruct Hr as [Hr Hmax].
    rewrite (inv_table _ _ _ _ I) in Hr. apply in_app_or in Hr.
    destruct Hr as [Hr|Hr]; [exfalso|assumption].
    rewrite Forall_forall in Hold.
    pose proof (Hold _ Hr) as Hs.
    apply (Permutation_in _ (Permutation_sym P)) in Hs.
    apply in_map_iff in Hs. destruct Hs as (r' & Hs' & Hr').
    assert (Hle : id r' <= id r).
    { apply Hmax; [|assumption].
      rewrite (inv_table _ _ _ _ I). apply in_or_app. auto. }
    pose proof (new_ids_above _ _ _ _ _ I Hr').
    destruct Hwf as [_ Hb]. rewrite Forall_forall in Hb.
    specialize (Hb _ Hr). lia. }
  assert (Hservers : forall x, In x (map server L) <-> In x preferred_order).
  { intros x. rewrite <- roster_is_preferred. split.
    - intros Hx. apply in_map_iff in Hx. destruct Hx as (r & <- & Hr).
      apply (Permutation_in _ P). apply in_map. auto.
    - intros Hx. apply (Permutation_in _ (Permutation_sym P)) in Hx.
      apply (Permutation_in _ (Permutation_map server (Permutation_sym PL))).
      apply select_latest_covers.
      rewrite (inv_table _ _ _ _ I), map_app. apply in_or_app. auto. }
  assert (E : map server L = preferred_order).
  { apply sorted_unique; [|apply preferred_order_ranked|exact Hservers].
    apply ranked_strictly.
    - apply (stable_sort_ordered (fun r => rank (server r))).
    - apply (Permutation_NoDup (Permutation_map server (Permutation_sym PL))).
      apply select_latest_distinct. assumption.
    - intros r Hr. apply Hservers. apply in_map. assumption. }
  rewrite <- E, map_map. apply map_ext_in. intros r Hr.
  pose proof (inv_rows _ _ _ _ I) as F. rewrite Forall_forall in F.
  rewrite (F _ (Hnew _ Hr)) at 1. apply to_dict_sample.
Qed.

Lemma realtime_after_cycle_witness :
  get_realtime_data (cs_db state_one_down)
  = map (fun s => to_dict (sample_of env_one_down 0 s)) preferred_order.
Proof.
  apply (realtime_after_cycle env_one_down (sequential ntp_servers)
           empty_db state_one_down).
  - apply db_wf_empty.
  - constructor.
  - intros s _. reflexivity.
  - vm_compute. reflexivity.
  - vm_compute. reflexivity.
Defined.

(** ** Three decimals *)

Lemma round_half_even_close (x : Q) :
  (Qabs (inject_Z (round_half_even x) - x) <= 1 # 2)%Q.
Proof.
  unfold round_half_even.
  pose proof (Qfloor_le x) as Hlo. pose proof (Qlt_floor x) as Hhi.
  rewrite inject_Z_plus in Hhi. change (inject_Z 1) with 1%Q in Hhi.
  apply Qabs_Qle_condition.
  destruct (Qcompare_spec (x - inject_Z (Qfloor x)) (1 # 2)) as [E|L|G].
  - destruct (Z.even (Qfloor x)).
    + split; Lqa.lra.
    + rewrite inject_Z_plus. change (inject_Z 1) with 1%Q. split; Lqa.lra.
  - split; Lqa.lra.
  - rewrite inject_Z_plus. change (inject_Z 1) with 1%Q. split; Lqa.lra.
Qed.

Lemma round_half_even_nonneg (x : Q) :
  (0 <= x)%Q -> 0 <= round_half_even x.
Proof.
  intros H. unfold round_half_even.
  assert (0 <= Qfloor x) by (apply (Qfloor_resp_le 0 x); assumption).
  destruct (_ ?= _)%Q; [destruct (Z.even _)| |]; lia.
Qed.

Lemma digits_value_decimal (n : Z) :
  0 <= n -> digits_value (decimal n) = Some n.
Proof.
  intros H. unfold digits_value, decimal.
  rewrite DecimalString.NilEmpty.usu. simpl.
  rewrite DecimalN.Unsigned.of_to, Z2N.id by assumption. reflexivity.
Qed.

Lemma fraction_digits (f : Z) :
  0 <= f < 1000 ->
  String.length
    ((if (f <? 10)%Z then "00" else if (f <? 100)%Z then "0" else "")
     ++ decimal f)%string = 3%nat
  /\ digits_value
       ((if (f <? 10)%Z then "00" else if (f <? 100)%Z then "0" else "")
        ++ decimal f)%string = Some f.
Proof.
  intros H.
  set (ok := fun k : nat =>
         let f := Z.of_nat k in
         let fp := ((if (f <? 10)%Z then "00" else if (f <? 100)%Z then "0" else "")
                    ++ decimal f)%string in
         Nat.eqb (String.length fp) 3
         && match digits_value fp with
            | Some v => v =? f
            | None => false
            end).
  assert (All : forallb ok (List.seq 0 1000) = true)
    by (vm_compute; reflexivity).
  rewrite forallb_forall in All.
  assert (Hk : In (Z.to_nat f) (List.seq 0 1000)) by (apply in_seq; lia).
  specialize (All _ Hk). unfold ok in All.
  rewrite Z2Nat.id in All by lia.
  apply andb_true_iff in All. destruct All as [Hl Hv].
  apply Nat.eqb_eq in Hl. split; [exact Hl|].
  destruct (digits_value _) as [v|]; [|discriminate].
  apply Z.eqb_eq in Hv. congruence.
Qed.

(** X16. A numeric field is serialised as an optional minus sign, the
    digits of an integer, a point and exactly three digits; read back as
    a number of thousandths, the text is within half a thousandth of the
    absolute value of the stored number, and the sign is there exactly
    for negative numbers (also when the digits are all zero). *)
Theorem format_3f_reads_back (q : Q) :
  exists sign ip fp I F,
    format_3f q = (sign ++ ip ++ "." ++ fp)%string
    /\ ((q < 0)%Q -> sign = "-") /\ ((0 <= q)%Q -> sign = "")
    /\ String.length fp = 3%nat
    /\ digits_value ip = Some I /\ digits_value fp = Some F
    /\ 0 <= I /\ 0 <= F < 1000
    /\ (Qabs (inject_Z (I * 1000 + F) - Qabs q * 1000) <= 1 # 2)%Q.
Proof.
  unfold format_3f.
  set (m := round_half_even (Qabs q * 1000)%Q).
  assert (Hm : 0 <= m).
  { apply round_half_even_nonneg. pose proof (Qabs_nonneg q). Lqa.nra. }
  assert (Hf : 0 <= m mod 1000 < 1000) by (apply Z.mod_pos_bound; lia).
  destruct (fraction_digits _ Hf) as [Hlen Hval].
  exists (if Qlt_le_dec q 0 then "-" else "").
  exists (decimal (m / 1000)).
  exists ((if (m mod 1000 <? 10)%Z then "00"
           else if (m mod 1000 <? 100)%Z then "0" else "")
          ++ decimal (m mod 1000))%string.
  exists (m / 1000), (m mod 1000).
  split; [reflexivity|]. split; [|split].
  - intros H. destruct (Qlt_le_dec q 0) as [?|H']; [reflexivity|].
    exfalso. Lqa.lra.
  - intros H. destruct (Qlt_le_dec q 0) as [H'|?]; [|reflexivity].
    exfalso. Lqa.lra.
  - split; [exact Hlen|].
    split; [apply digits_value_decimal; apply Z.div_pos; lia|].
    split; [exact Hval|].
    split; [apply Z.div_pos; lia|]. split; [exact Hf|].
    replace (m / 1000 * 1000 + m mod 1000) with m
      by (rewrite (Z.div_mod m 1000) at 1; lia).
    apply round_half_even_close.
Qed.

(** Three stored values and their texts. *)
Example format_3f_samples :
  format_3f (-45 # 10) = "-4.500"
  /\ format_3f (1000 # 1048576) = "0.001"
  /\ format_3f (-1 # 10000) = "-0.000"
  /\ format_3f 0 = "0.000"
  /\ format_3f (123456789 # 1000) = "123456.789".
Proof. repeat split; vm_compute; reflexivity. Qed.

(** ** Progress within a cycle *)

(** X17. Rows are committed as the cycle goes: whatever the cycle does
    after some point, the table and the two lists it had at that point
    are prefixes of what it has later, and the new delays are those of
    the Online rows written in between. *)
Theorem cycle_progress_is_kept (e : env) (sched1 sched2 : list event)
    (db : database) (st1 st2 : cycle_state) :
  run e sched1 (cycle_init db) = Some st1 ->
  run e sched2 st1 = Some st2 ->
  exists later,
    table (cs_db st2) = table (cs_db st1) ++ later
    /\ delays st2 = delays st1 ++ map delay_ms (filter is_online later)
    /\ offsets st2 = offsets st1 ++ map offset_ms (filter is_online later)
    /\ (cs_raised st1 = true -> cs_raised st2 = true).
Proof.
  intros R1 R2.
  destruct (cycle_invariant _ _ _ _ R1) as (new & I1).
  destruct (run_preserves _ _ _ _ _ _ I1 R2) as (later & I2).
  exists later.
  rewrite (inv_table _ _ _ _ I2), (inv_table _ _ _ _ I1), app_assoc.
  rewrite (inv_delays _ _ _ _ I2), (inv_delays _ _ _ _ I1).
  rewrite (inv_offsets _ _ _ _ I2), (inv_offsets _ _ _ _ I1).
  rewrite filter_app, !map_app. repeat split.
  clear -R2. revert st1 R2.
  induction sched2 as [|ev sched2 IH]; intros st1 R2 X; simpl in R2.
  - inversion R2; subst. assumption.
  - destruct (step e ev st1) as [st|] eqn:S; [|discriminate].
    apply (IH _ R2). destruct ev as [s|s]; cbn [step] in S.
    + destruct (future_of (future_to_server st1) s) as [[|r]|];
        try discriminate.
      destruct (query_ntp_server e s (cs_db st1)) as [[d o]|];
        inversion S; subst; assumption.
    + rewrite X in S. discriminate.
Qed.

Lemma cycle_progress_is_kept_witness :
  exists later,
    table (cs_db state_one_down)
    = table (cs_db (run_or_init env_one_down
                      (firstn 6 (sequential ntp_servers)) empty_db))
      ++ later
    /\ delays state_one_down
       = delays (run_or_init env_one_down
                   (firstn 6 (sequential ntp_servers)) empty_db)
         ++ map delay_ms (filter is_online later)
    /\ offsets state_one_down
       = offsets (run_or_init env_one_down
                    (firstn 6 (sequential ntp_servers)) empty_db)
         ++ map offset_ms (filter is_online later)
    /\ (cs_raised (run_or_init env_one_down
                     (firstn 6 (sequential ntp_servers)) empty_db) = true ->
        cs_raised state_one_down = true).
Proof.
  apply (cycle_progress_is_kept env_one_down
           (firstn 6 (sequential ntp_servers))
           (skipn 6 (sequential ntp_servers)) empty_db).
  - vm_compute. reflexivity.
  - vm_compute. reflexivity.
Defined.

(** Twelve stored days: the history shows the ten latest, newest first. *)
Example history_of_twelve_days :
  map (fun d => dict_get d "timestamp")
      (get_history (Some "time.google.com") db_twelve_days)
  = [ Some "2024-01-12"; Some "2024-01-11"; Some "2024-01-10";
      Some "2024-01-09"; Some "2024-01-08"; Some "2024-01-07";
      Some "2024-01-06"; Some "2024-01-05"; Some "2024-01-04";
      Some "2024-01-03" ].
Proof. vm_compute. reflexivity. Qed.

(** ** One server does not disturb another *)

(** X18. What a cycle stores for a server depends only on that server's
    own answer and on the clock reading taken for it.  If two
    environments agree on these for a server, then any row the one
    cycle stored for it and any row the other stored for it are the same
    sample under two ids and serialise identically, whatever the other
    servers and the store did and wherever the two cycles stand.  When
    moreover the server is in the list and both cycles have finished
    with every write accepted, each of them has stored such a row. *)
Theorem sample_depends_on_own_probe (e1 e2 : env) (srv : string)
    (sched1 sched2 : list event) (db1 db2 : database)
    (st1 st2 : cycle_state) :
  request e1 srv = request e2 srv ->
  now_query e1 srv = now_query e2 srv ->
  run e1 sched1 (cycle_init db1) = Some st1 ->
  run e2 sched2 (cycle_init db2) = Some st2 ->
  (forall r1 r2,
      In r1 (appended db1 st1) -> In r2 (appended db2 st2) ->
      server r1 = srv -> server r2 = srv ->
      r1 = sample_of e1 (id r1) srv
      /\ r2 = sample_of e1 (id r2) srv
      /\ to_dict r1 = to_dict r2)
  /\ (In srv ntp_servers ->
      (forall s, In s ntp_servers -> insert_ok e1 s = true) ->
      (forall s, In s ntp_servers -> insert_ok e2 s = true) ->
      cycle_over st1 = true -> cycle_over st2 = true ->
      exists r1 r2,
        In r1 (appended db1 st1) /\ In r2 (appended db2 st2)
        /\ server r1 = srv /\ server r2 = srv).
Proof.
  intros Hreq Hnow R1 R2. split.
  - intros r1 r2 Hr1 Hr2 S1 S2.
    pose proof (appended_rows _ _ _ _ R1) as F1.
    pose proof (appended_rows _ _ _ _ R2) as F2.
    rewrite Forall_forall in F1, F2.
    pose proof (F1 _ Hr1) as E1. pose proof (F2 _ Hr2) as E2.
    rewrite S1 in E1. rewrite S2 in E2.
    assert (E2' : r2 = sample_of e1 (id r2) srv).
    { rewrite E2 at 1. unfold sample_of. rewrite Hreq, Hnow. reflexivity. }
    split; [exact E1|]. split; [exact E2'|].
    transitivity (to_dict (sample_of e1 0 srv)).
    + rewrite E1 at 1. apply to_dict_sample.
    + rewrite E2' at 1. symmetry. apply to_dict_sample.
  - intros Hin Hok1 Hok2 O1 O2.
    destruct (cycle_rows_complete _ _ _ _ Hok1 R1 O1) as (new1 & I1 & P1).
    destruct (cycle_rows_complete _ _ _ _ Hok2 R2 O2) as (new2 & I2 & P2).
    rewrite (appended_new _ _ _ _ I1), (appended_new _ _ _ _ I2).
    pose proof (Permutation_in _ (Permutation_sym P1) Hin) as H1.
    pose proof (Permutation_in _ (Permutation_sym P2) Hin) as H2.
    apply in_map_iff in H1. destruct H1 as (r1 & S1 & Hr1).
    apply in_map_iff in H2. destruct H2 as (r2 & S2 & Hr2).
    exists r1, r2. auto.
Qed.

Lemma sample_depends_on_own_probe_witness :
  (forall r1 r2,
      In r1 (appended empty_db state_one_down) ->
      In r2 (appended empty_db state_google_only) ->
      server r1 = "time.google.com" -> server r2 = "time.google.com" ->
      r1 = sample_of env_one_down (id r1) "time.google.com"
      /\ r2 = sample_of env_one_down (id r2) "time.google.com"
      /\ to_dict r1 = to_dict r2)
  /\ (In "time.google.com" ntp_servers ->
      (forall s, In s ntp_servers -> insert_ok env_one_down s = true) ->
      (forall s, In s ntp_servers -> insert_ok env_google_only s = true) ->
      cycle_over state_one_down = true ->
      cycle_over state_google_only = true ->
      exists r1 r2,
        In r1 (appended empty_db state_one_down)
        /\ In r2 (appended empty_db state_google_only)
        /\ server r1 = "time.google.com" /\ server r2 = "time.google.com").
Proof.
  apply (sample_depends_on_own_probe env_one_down env_google_only
           "time.google.com"
           (sequential ntp_servers) (workers_first env_google_only)
           empty_db empty_db).
  - reflexivity.
  - reflexivity.
  - vm_compute. reflexivity.
  - vm_compute. reflexivity.
Defined.

(** Both cycles did store a row for [time.google.com]: the thirteenth
    row of the one, the fifteenth of the other. *)
Example google_rows_stored :
  In (sample_of env_one_down 13 "time.google.com")
     (appended empty_db state_one_down)
  /\ In (sample_of env_one_down 15 "time.google.com")
        (appended empty_db state_google_only).
Proof. split; vm_compute; tauto. Qed.

(** ** A cycle never gets stuck *)

Lemma mem_cons s x l : mem x (s :: l) = String.eqb x s || mem x l.
Proof. reflexivity. Qed.

Lemma finish_workers e : forall ps st,
  NoDup ps ->
  (forall s, In s ps -> future_of (future_to_server st) s = Some Pending) ->
  exists st',
    run e (map Worker ps) st = Some st'
    /\ (forall s, is_done_at (future_to_server st') s
                  = is_done_at (future_to_server st) s || mem s ps)
    /\ cs_yielded st' = cs_yielded st
    /\ cs_raised st' = cs_raised st.
Proof.
  induction ps as [|s ps IH]; intros st Hnd Hp.
  - exists st. repeat split. intros s. rewrite orb_false_r. reflexivity.
  - inversion Hnd as [|? ? Hnotin Hnd']; subst.
    destruct (step_worker_result e st s (Hp s (or_introl eq_refl)))
      as (st1 & S1 & F1 & Y1 & R1).
    destruct (IH st1 Hnd') as (st' & Hrun & D & Y & R).
    + intros s' Hs'. rewrite F1, future_of_set_other.
      * apply Hp. simpl. auto.
      * intros ->. contradiction.
    + exists st'. cbn [map run]. rewrite S1, Hrun.
      split; [reflexivity|]. split; [|split; congruence].
      intros x. rewrite D, F1, mem_cons.
      destruct (String.eqb_spec x s) as [->|Hne].
      * rewrite (is_done_at_set_same _ _ _ _ (Hp s (or_introl eq_refl))).
        unfold is_done_at. rewrite (Hp s (or_introl eq_refl)). reflexivity.
      * rewrite is_done_at_set_other by congruence. reflexivity.
Qed.

Lemma futures_all_done e (fs : list (string * future)) :
  NoDup (map fst fs) ->
  (forall s f, future_of fs s = Some f ->
               f = Pending \/ f = Done (outcome e s)) ->
  (forall s, In s (map fst fs) -> is_done_at fs s = true) ->
  fs = map (fun s => (s, Done (outcome e s))) (map fst fs).
Proof.
  induction fs as [|[k f] fs IH]; simpl; intros Hnd Hf Hd; [reflexivity|].
  inversion Hnd as [|? ? Hnotin Hnd']; subst.
  assert (E : f = Done (outcome e k)).
  { specialize (Hf k f). specialize (Hd k (or_introl eq_refl)).
    unfold is_done_at in Hd. simpl in Hf, Hd.
    rewrite String.eqb_refl in Hf, Hd.
    destruct (Hf eq_refl) as [-> | ->]; [discriminate|reflexivity]. }
  rewrite E. f_equal. apply IH; [assumption| |].
  - intros s g Hg. apply Hf.
    destruct (String.eqb_spec k s) as [->|Hne]; [|assumption].
    exfalso. apply Hnotin.
    destruct (in_dec string_dec s (map fst fs)) as [?|Hout]; [assumption|].
    apply future_of_none in Hout. congruence.
  - intros s Hs. specialize (Hd s (or_intror Hs)).
    unfold is_done_at in *. simpl in Hd.
    destruct (String.eqb_spec k s) as [->|Hne]; [contradiction|assumption].
Qed.

Lemma pending_is_pending e db st new s :
  cycle_inv e db st new -> In s (pending_servers st) ->
  future_of (future_to_server st) s = Some Pending.
Proof.
  intros I Hs. unfold pending_servers in Hs. apply filter_In in Hs.
  destruct Hs as [Hin Hnd]. unfold is_done_at in Hnd.
  destruct (future_of (future_to_server st) s) as [f|] eqn:F.
  - destruct f; [reflexivity|discriminate].
  - apply future_of_none in F. rewrite (inv_keys _ _ _ _ I) in F.
    contradiction.
Qed.

(** X19. A cycle cannot deadlock: from every state it can reach, the
    workers still running can finish and the loop body can take the
    remaining futures (up to the first that raises), after which the
    [with] block is left. *)
Theorem cycle_never_stuck (e : env) (sched : list event) (db : database)
    (st : cycle_state) :
  run e sched (cycle_init db) = Some st ->
  exists rest st',
    run e rest st = Some st'
    /\ run e (sched ++ rest) (cycle_init db) = Some st'
    /\ cycle_over st' = true.
Proof.
  intros Hrun. destruct (cycle_invariant _ _ _ _ Hrun) as (new & I).
  destruct (finish_workers e (pending_servers st) st)
    as (st1 & R1 & D1 & Y1 & X1).
  { apply NoDup_filter. apply NoDup_ntp_servers. }
  { intros s Hs. eapply pending_is_pending; eassumption. }
  destruct (run_preserves _ _ _ _ _ _ I R1) as (l1 & I1).
  assert (Hall : forall s, In s ntp_servers ->
                           is_done_at (future_to_server st1) s = true).
  { intros s Hs. rewrite D1.
    destruct (is_done_at (future_to_server st) s) eqn:E; [reflexivity|].
    simpl. apply mem_true. unfold pending_servers. apply filter_In.
    rewrite E. auto. }
  assert (Hfs : future_to_server st1
                = map (fun s => (s, Done (outcome e s))) ntp_servers).
  { rewrite <- (inv_keys _ _ _ _ I1). apply futures_all_done.
    - rewrite (inv_keys _ _ _ _ I1). apply NoDup_ntp_servers.
    - apply (inv_futures _ _ _ _ I1).
    - rewrite (inv_keys _ _ _ _ I1). exact Hall. }
  destruct (cs_raised st1) eqn:X.
  - exists (map Worker (pending_servers st)), st1.
    split; [exact R1|]. split; [rewrite run_app, Hrun; exact R1|].
    unfold cycle_over. rewrite Hfs, all_done, X. reflexivity.
  - destruct (yields_run e (unyielded_servers st1) st1 Hfs X)
      as (st2 & R2 & O2).
    + apply NoDup_filter. apply NoDup_ntp_servers.
    + intros s Hs. unfold unyielded_servers in Hs. apply filter_In in Hs.
      destruct Hs as [Hin Hm]. split; [assumption|].
      destruct (mem s (cs_yielded st1)); [discriminate|reflexivity].
    + intros s Hs. destruct (mem s (cs_yielded st1)) eqn:M; [auto|].
      right. unfold unyielded_servers. apply filter_In. rewrite M. auto.
    + exists (map Worker (pending_servers st)
              ++ yields_until_raise e (unyielded_servers st1)), st2.
      split; [rewrite run_app, R1; exact R2|]. split; [|exact O2].
      rewrite run_app, Hrun, run_app, R1. exact R2.
Qed.

Lemma cycle_never_stuck_witness :
  exists rest st',
    run env_one_down rest
        (run_or_init env_one_down (firstn 6 (sequential ntp_servers))
           empty_db) = Some st'
    /\ run env_one_down (firstn 6 (sequential ntp_servers) ++ rest)
           (cycle_init empty_db) = Some st'
    /\ cycle_over st' = true.
Proof.
  apply (cycle_never_stuck env_one_down (firstn 6 (sequential ntp_servers))
           empty_db).
  vm_compute. reflexivity.
Defined.
